(** * A users-and-posts HTTP service: model of [src/index.ts] and [init.sql]

    The service keeps two tables, [user] and [post], behind an ORM and
    exposes eight routes over them.  This development embeds the route
    handlers and the start-up connection loop of [src/index.ts] as
    functions on an explicit world (database, fault schedule, console), and
    the schema of [init.sql] as the storage layer the handlers call into. *)

From stdpp Require Import gmap strings list fin_maps pretty.
From Stdlib Require Import ZArith.

Local Open Scope Z_scope.

(** ** JavaScript values *)

(** What a request body member, or a variable of a handler, can hold.
    Numbers are the integers (a fraction in a body is not represented);
    [JNaN] is what [parseInt] gives for a string with no leading digits.
    Objects and arrays are kept as their JSON text: the handlers only ever
    test them for truthiness. *)
Inductive JsValue : Type :=
| JUndefined
| JNull
| JBool (b : bool)
| JNum (n : Z)
| JNaN
| JStr (s : string)
| JObject (json : string).

(** [if (v)], [!v] and [v || w] of JavaScript. *)
Definition truthy (v : JsValue) : bool :=
  match v with
  | JUndefined | JNull | JNaN => false
  | JBool b => b
  | JNum n => negb (n =? 0)
  | JStr s => negb (String.eqb s "")
  | JObject _ => true
  end.

Definition js_or (v w : JsValue) : JsValue := if truthy v then v else w.

(** A parsed JSON request body, and the destructuring
    [const { k } = req.body]: a member that is absent reads [undefined]. *)
Abbreviation Body := (gmap string JsValue).

Definition prop (body : Body) (k : string) : JsValue :=
  default JUndefined (body !! k).

(** ** Entities and tables *)

(** A row of [user] and a row of [post].  The entity classes the handlers
    import ([entity/User], [entity/Post]) are not among the sources: the
    columns are those of [init.sql], under the property names the handlers
    use.  A column holds the value the handler handed to [save]; what the
    driver makes of a value that is not a string is left out. *)
Record User : Type := mkUser {
  user_id : Z;
  firstName : JsValue;
  lastName : JsValue;
  email : JsValue
}.

Record Post : Type := mkPost {
  post_id : Z;
  title : JsValue;
  description : JsValue;
  userId : Z
}.

(** The two tables, keyed by their primary key, and the two
    [AUTO_INCREMENT] counters. *)
Record Database : Type := mkDatabase {
  users : gmap Z User;
  posts : gmap Z Post;
  user_seq : Z;
  post_seq : Z
}.

Definition empty_db : Database :=
  {| users := ∅; posts := ∅; user_seq := 1; post_seq := 1 |}.

(** ** The world a handler runs in *)

(** [faults] is the schedule of the storage layer: its next entry says
    whether the next round trip to the database fails ([Some e]) or goes
    through ([None]; so does an exhausted schedule).  [thrown] collects
    every error the storage layer has raised, [console] every line the
    process has printed; both grow at the head. *)
Record World : Type := mkWorld {
  db : Database;
  faults : list (option string);
  thrown : list string;
  console : list string
}.

(** The process starts on the tables the volume holds, with nothing
    raised and nothing printed yet. *)
Definition boot (d : Database) (fs : list (option string)) : World :=
  {| db := d; faults := fs; thrown := []; console := [] |}.

Inductive Outcome (A : Type) : Type :=
| Ok (a : A)
| Throw (e : string).
Arguments Ok {A} a.
Arguments Throw {A} e.

(** Code that reads and writes the world and may throw. *)
Definition Eff (A : Type) : Type := World -> Outcome A * World.

Definition ret {A} (a : A) : Eff A := fun w => (Ok a, w).

Definition bind {A B} (m : Eff A) (k : A -> Eff B) : Eff B := fun w =>
  match m w with
  | (Ok a, w') => k a w'
  | (Throw e, w') => (Throw e, w')
  end.

Notation "'let*' x := m 'in' k" := (bind m (fun x => k))
  (at level 10, x name, m at level 100, k at level 200, only parsing).
Notation "'do' m 'then' k" := (bind m (fun _ => k))
  (at level 10, m at level 100, k at level 200, only parsing).

(** [try { body } catch (error) { handler }] *)
Definition try_catch {A} (body : Eff A) (handler : string -> Eff A) : Eff A :=
  fun w =>
    match body w with
    | (Ok a, w') => (Ok a, w')
    | (Throw e, w') => handler e w'
    end.

(** [console.error(label, error)] *)
Definition console_error (label error : string) : Eff unit := fun w =>
  (Ok tt, {| db := db w; faults := faults w; thrown := thrown w;
             console := (label +:+ " " +:+ error) :: console w |}).

(** ** The storage layer: the schema of [init.sql] behind the ORM *)

(** What a [where: { id: v }] condition selects: the row with a given key,
    no row, or nothing at all because the query itself is refused. *)
Inductive Criterion : Type :=
| ById (k : Z)
| Unmatched
| Rejected (e : string).

(** [NOT NULL] of [init.sql]. *)
Definition not_null (v : JsValue) : bool :=
  match v with
  | JUndefined | JNull => false
  | _ => true
  end.

Definition Query (A : Type) : Type := Database -> Outcome A * Database.

(** [repository.find()] on [user]. *)
Definition select_users : Query (list User) := fun d =>
  (Ok ((map_to_list (users d)).*2), d).

(** [repository.findOne({ where: { id } })] on [user]. *)
Definition select_user (c : Criterion) : Query (option User) := fun d =>
  match c with
  | ById k => (Ok (users d !! k), d)
  | Unmatched => (Ok None, d)
  | Rejected e => (Throw e, d)
  end.

(** [repository.save] of an entity made by [create]: an [INSERT] that takes
    the next [AUTO_INCREMENT] key. *)
Definition insert_user (first last mail : JsValue) : Query User := fun d =>
  if not_null first && not_null last && not_null mail then
    let u := mkUser (user_seq d) first last mail in
    (Ok u, {| users := <[user_seq d := u]> (users d); posts := posts d;
              user_seq := user_seq d + 1; post_seq := post_seq d |})
  else (Throw "ER_BAD_NULL_ERROR", d).

(** [repository.save] of an entity loaded by [findOne]: the row of its key
    is written.  The widths of the columns ([VARCHAR(100)]) are not
    checked here: a statement that concludes to a successful write of
    supplied values carries their fit ([fits_column]) as a hypothesis. *)
Definition update_user (u : User) : Query unit := fun d =>
  (Ok tt, {| users := <[user_id u := u]> (users d); posts := posts d;
             user_seq := user_seq d; post_seq := post_seq d |}).

(** [repository.remove] on [user]: [DELETE FROM user WHERE id = ?], and
    with it, by [ON DELETE CASCADE], every [post] whose [userId] is that
    key. *)
Definition delete_user (u : User) : Query unit := fun d =>
  (Ok tt, {| users := delete (user_id u) (users d);
             posts := filter (fun kp => userId kp.2 ≠ user_id u) (posts d);
             user_seq := user_seq d; post_seq := post_seq d |}).

(** [repository.findOne({ where: { id } })] on [post]. *)
Definition select_post (c : Criterion) : Query (option Post) := fun d =>
  match c with
  | ById k => (Ok (posts d !! k), d)
  | Unmatched => (Ok None, d)
  | Rejected e => (Throw e, d)
  end.

(** [repository.find({ where: { user: { id } } })] on [post]. *)
Definition select_posts_of (c : Criterion) : Query (list Post) := fun d =>
  match c with
  | ById k =>
      (Ok ((map_to_list (filter (fun kp => userId kp.2 = k) (posts d))).*2), d)
  | Unmatched => (Ok [], d)
  | Rejected e => (Throw e, d)
  end.

(** [repository.save] of a new post: an [INSERT] with [userId] the key of
    the given user, refused by the [FOREIGN KEY] when no such row exists. *)
Definition insert_post (t desc : JsValue) (u : User) : Query Post := fun d =>
  if not_null t && not_null desc then
    match users d !! user_id u with
    | Some _ =>
        let p := mkPost (post_seq d) t desc (user_id u) in
        (Ok p, {| users := users d; posts := <[post_seq d := p]> (posts d);
                  user_seq := user_seq d; post_seq := post_seq d + 1 |})
    | None => (Throw "ER_NO_REFERENCED_ROW", d)
    end
  else (Throw "ER_BAD_NULL_ERROR", d).

(** [repository.save] of a post loaded by [findOne]; as for [update_user],
    the widths of [title] and [description] are not checked here. *)
Definition update_post (p : Post) : Query unit := fun d =>
  (Ok tt, {| users := users d; posts := <[post_id p := p]> (posts d);
             user_seq := user_seq d; post_seq := post_seq d |}).

Definition delete_post (p : Post) : Query unit := fun d =>
  (Ok tt, {| users := users d; posts := delete (post_id p) (posts d);
             user_seq := user_seq d; post_seq := post_seq d |}).

(** The world after a round trip that was answered, and after one that
    raised [e]; either way one entry of the schedule is used up. *)
Definition answered (w : World) (d : Database) : World :=
  {| db := d; faults := tail (faults w); thrown := thrown w;
     console := console w |}.

Definition failed (w : World) (e : string) (d : Database) : World :=
  {| db := d; faults := tail (faults w); thrown := e :: thrown w;
     console := console w |}.

(** One [await] on the repository: the schedule decides whether the round
    trip fails; when it does not, the query runs on the database.  Every
    error raised here is recorded in [thrown]. *)
Definition round_trip {A} (q : Query A) : Eff A := fun w =>
  match faults w with
  | Some e :: _ => (Throw e, failed w e (db w))
  | _ =>
      match q (db w) with
      | (Ok a, d) => (Ok a, answered w d)
      | (Throw e, d) => (Throw e, failed w e d)
      end
  end.

(** ** Responses *)

Inductive Payload : Type :=
| Message (message : string)
| UserJson (u : User)
| UsersJson (us : list User)
| PostJson (p : Post)
| NewPostJson (p : Post) (owner : User)
| PostsJson (ps : list Post).

Record Response : Type := respond {
  status : Z;
  payload : Payload
}.

(** ** The route handlers of [src/index.ts] *)

Inductive Request : Type :=
| GET_users
| POST_users (body : Body)
| PUT_users_id (id : string) (body : Body)
| DELETE_users_id (id : string)
| POST_posts (body : Body)
| GET_users_id_posts (id : string)
| PUT_posts_id (id : string) (body : Body)
| DELETE_posts_id (id : string).

(** The message each handler sends from its [catch] block. *)
Definition generic_message (r : Request) : string :=
  match r with
  | GET_users => "Error fetching users"
  | POST_users _ => "Error creating user"
  | PUT_users_id _ _ => "Error updating user"
  | DELETE_users_id _ => "Error deleting user"
  | POST_posts _ => "Error creating post"
  | GET_users_id_posts _ => "Error fetching posts"
  | PUT_posts_id _ _ => "Error updating post"
  | DELETE_posts_id _ => "Error deleting post"
  end.

Section Handlers.

(** Two pieces of the platform the handlers call and the repository does
    not define: JavaScript's [parseInt] on a path segment, and the way
    the ORM and the database read a [where] value that is not an integer
    (a numeric string, [NaN], ...) against an [INT] key. *)
Variable parseInt : string -> JsValue.
Variable coerce_id : JsValue -> Criterion.

Definition where_id (v : JsValue) : Criterion :=
  match v with
  | JNum n => ById n
  | _ => coerce_id v
  end.

(** [app.get('/users', ...)] *)
Definition get_users : Eff Response :=
  try_catch
    (let* users := round_trip select_users in
     ret (respond 200 (UsersJson users)))
    (fun error =>
       do console_error "Error fetching users:" error then
       ret (respond 500 (Message "Error fetching users"))).

(** [app.post('/users', ...)] *)
Definition post_users (body : Body) : Eff Response :=
  let firstName := prop body "firstName" in
  let lastName := prop body "lastName" in
  let email := prop body "email" in
  try_catch
    (let* newUser := round_trip (insert_user firstName lastName email) in
     ret (respond 201 (UserJson newUser)))
    (fun error =>
       do console_error "Error creating user:" error then
       ret (respond 500 (Message "Error creating user"))).

(** The three conditional assignments of the update handler. *)
Definition assign_user_fields (user : User) (first last mail : JsValue) : User :=
  let user :=
    if truthy first
    then mkUser (user_id user) first (lastName user) (email user) else user in
  let user :=
    if truthy last
    then mkUser (user_id user) (firstName user) last (email user) else user in
  if truthy mail
  then mkUser (user_id user) (firstName user) (lastName user) mail else user.

(** [app.put('/users/:id', ...)] *)
Definition put_users_id (id : string) (body : Body) : Eff Response :=
  let userId := parseInt id in
  let firstName := prop body "firstName" in
  let lastName := prop body "lastName" in
  let email := prop body "email" in
  try_catch
    (let* found := round_trip (select_user (where_id userId)) in
     match found with
     | None => ret (respond 404 (Message "User not found"))
     | Some user =>
         let user := assign_user_fields user firstName lastName email in
         do round_trip (update_user user) then
         ret (respond 200 (UserJson user))
     end)
    (fun error =>
       do console_error "Error updating user:" error then
       ret (respond 500 (Message "Error updating user"))).

(** [app.delete('/users/:id', ...)] *)
Definition delete_users_id (id : string) : Eff Response :=
  let userId := parseInt id in
  try_catch
    (let* found := round_trip (select_user (where_id userId)) in
     match found with
     | None => ret (respond 404 (Message "User not found"))
     | Some user =>
         do round_trip (delete_user user) then
         ret (respond 200 (Message "User deleted successfully"))
     end)
    (fun error =>
       do console_error "Error deleting user:" error then
       ret (respond 500 (Message "Error deleting user"))).

(** [app.post('/posts', ...)] *)
Definition post_posts (body : Body) : Eff Response :=
  let title := prop body "title" in
  let description := prop body "description" in
  let userId := prop body "userId" in
  if negb (truthy title) || negb (truthy description) || negb (truthy userId)
  then ret (respond 400 (Message "Title, description, and userId are required"))
  else
    try_catch
      (let* found := round_trip (select_user (where_id userId)) in
       match found with
       | None => ret (respond 404 (Message "User not found"))
       | Some user =>
           let* newPost := round_trip (insert_post title description user) in
           ret (respond 201 (NewPostJson newPost user))
       end)
      (fun error =>
         do console_error "Error creating post:" error then
         ret (respond 500 (Message "Error creating post"))).

(** [app.get('/users/:id/posts', ...)] *)
Definition get_users_id_posts (id : string) : Eff Response :=
  let userId := parseInt id in
  try_catch
    (let* posts := round_trip (select_posts_of (where_id userId)) in
     ret (respond 200 (PostsJson posts)))
    (fun error =>
       do console_error "Error fetching posts:" error then
       ret (respond 500 (Message "Error fetching posts"))).

(** [app.put('/posts/:id', ...)] *)
Definition put_posts_id (id : string) (body : Body) : Eff Response :=
  let postId := parseInt id in
  let title' := prop body "title" in
  let description' := prop body "description" in
  try_catch
    (let* found := round_trip (select_post (where_id postId)) in
     match found with
     | None => ret (respond 404 (Message "Post not found"))
     | Some post =>
         let post :=
           mkPost (post_id post) (js_or title' (title post))
                  (description post) (userId post) in
         let post :=
           mkPost (post_id post) (title post)
                  (js_or description' (description post)) (userId post) in
         do round_trip (update_post post) then
         ret (respond 200 (PostJson post))
     end)
    (fun error =>
       do console_error "Error updating post:" error then
       ret (respond 500 (Message "Error updating post"))).

(** [app.delete('/posts/:id', ...)] *)
Definition delete_posts_id (id : string) : Eff Response :=
  let postId := parseInt id in
  try_catch
    (let* found := round_trip (select_post (where_id postId)) in
     match found with
     | None => ret (respond 404 (Message "Post not found"))
     | Some post =>
         do round_trip (delete_post post) then
         ret (respond 200 (Message "Post deleted successfully"))
     end)
    (fun error =>
       do console_error "Error deleting post:" error then
       ret (respond 500 (Message "Error deleting post"))).

(** The router. *)
Definition handle (r : Request) : Eff Response :=
  match r with
  | GET_users => get_users
  | POST_users body => post_users body
  | PUT_users_id id body => put_users_id id body
  | DELETE_users_id id => delete_users_id id
  | POST_posts body => post_posts body
  | GET_users_id_posts id => get_users_id_posts id
  | PUT_posts_id id body => put_posts_id id body
  | DELETE_posts_id id => delete_posts_id id
  end.

End Handlers.

(** ** The start-up connection loop of [src/index.ts] *)

(** What the process has done so far: how many times it has called
    [AppDataSource.initialize()], the delays (in milliseconds) it has
    waited through [setTimeout], most recent first, the lines it has
    printed, and the code it has exited with, if it has. *)
Record Process : Type := mkProcess {
  attempts : nat;
  timers : list Z;
  output : list string;
  exit_code : option Z
}.

Definition started : Process :=
  {| attempts := 0; timers := []; output := []; exit_code := None |}.

(** Milliseconds spent waiting. *)
Definition waited (p : Process) : Z := foldr Z.add 0 (timers p).

(** The [while (retries)] loop.  [initialize n] is what the [n]-th call of
    [AppDataSource.initialize()] does (counting from 0).  The result
    carries the value [retries] has when the loop is left. *)
Fixpoint connect_loop (initialize : nat -> Outcome unit) (retries : nat)
    (p : Process) : nat * Process :=
  match retries with
  | O => (O, p)
  | S remaining =>
      match initialize (attempts p) with
      | Ok _ =>
          (retries,
           {| attempts := S (attempts p); timers := timers p;
              output := "Data Source has been initialized!" :: output p;
              exit_code := exit_code p |})
      | Throw err =>
          connect_loop initialize remaining
            {| attempts := S (attempts p); timers := 5000 :: timers p;
               output := ("Retries left: " +:+ pretty remaining)
                         :: ("Error during Data Source initialization: " +:+ err)
                         :: output p;
               exit_code := exit_code p |}
      end
  end.

Definition initializeDatabase (initialize : nat -> Outcome unit) : Process :=
  let '(retries, p) := connect_loop initialize 10 started in
  if (retries =? 0)%nat
  then {| attempts := attempts p; timers := timers p;
          output := "Could not connect to the database. Exiting..." :: output p;
          exit_code := Some 1 |}
  else p.

Definition fails {A} (o : Outcome A) : bool :=
  match o with Ok _ => false | Throw _ => true end.

(** ** Instances of the platform used in the examples *)

Definition digit_of (a : Ascii.ascii) : option Z :=
  let n := Z.of_N (Ascii.N_of_ascii a) in
  if (48 <=? n) && (n <=? 57) then Some (n - 48) else None.

Fixpoint leading_digits (s : string) (acc : option Z) : option Z :=
  match s with
  | EmptyString => acc
  | String a rest =>
      match digit_of a with
      | Some d => leading_digits rest (Some (10 * default 0 acc + d))
      | None => acc
      end
  end.

(** [parseInt] on a path segment that starts with decimal digits, or with
    none ([NaN]); signs, blanks and the [0x] prefix are left out. *)
Definition parse_decimal (s : string) : JsValue :=
  match leading_digits s None with
  | Some n => JNum n
  | None => JNaN
  end.

(** A storage layer for which only integers select rows. *)
Definition no_coercion (v : JsValue) : Criterion := Unmatched.

(** [handle] on this platform, and the world it leaves. *)
Definition serve (r : Request) (w : World) : World :=
  (handle parse_decimal no_coercion r w).2.

(** The end-to-end run: on empty tables, [POST /users] creates a user, who
    gets identity 1, and [POST /posts] a post of that user. *)
Definition new_user_body : Body :=
  list_to_map [("firstName", JStr "A"); ("lastName", JStr "B");
               ("email", JStr "a@b.com")].

Definition new_post_body : Body :=
  list_to_map [("title", JStr "T"); ("description", JStr "D");
               ("userId", JNum 1)].

Definition user_1 : User := mkUser 1 (JStr "A") (JStr "B") (JStr "a@b.com").

Definition post_1 : Post := mkPost 1 (JStr "T") (JStr "D") 1.

Definition one_user_one_post : World :=
  serve (POST_posts new_post_body)
    (serve (POST_users new_user_body) (boot empty_db [])).

(** Bodies of further requests on that run. *)
Definition rename_body : Body :=
  list_to_map [("firstName", JStr ""); ("lastName", JStr "Z")].

Definition post_without_owner_body : Body :=
  list_to_map [("title", JStr "T"); ("description", JStr "D")].

Definition post_of_stranger_body : Body :=
  list_to_map [("title", JStr "T"); ("description", JStr "D");
               ("userId", JNum 7)].

Definition empty_body : Body := ∅.

Definition retitle_body : Body :=
  list_to_map [("title", JStr ""); ("description", JStr "E");
               ("userId", JNum 2)].

Definition nameless_body : Body :=
  list_to_map [("lastName", JStr "B"); ("email", JStr "a@b.com")].

(** The same tables while the database is unreachable for one round
    trip. *)
Definition outage : World :=
  {| db := db one_user_one_post; faults := [Some "ECONNRESET"];
     thrown := []; console := [] |}.

(** A database that refuses every connection, and one that accepts the
    fourth. *)
Definition never_up (n : nat) : Outcome unit := Throw "ECONNREFUSED".

Definition up_at_fourth (n : nat) : Outcome unit :=
  if (n <? 3)%nat then Throw "ECONNREFUSED" else Ok tt.

(** ** Vocabulary of the statements *)

(** The schedule lets the next [n] round trips through. *)
Definition calm (n : nat) (w : World) : bool :=
  forallb (fun f => bool_decide (f = None)) (take n (faults w)).

(** What the schema guarantees of the tables: a row sits under its own
    primary key, and the [userId] of every post is the key of a row of
    [user]. *)
Record consistent (d : Database) : Prop := mkConsistent {
  user_keys : ∀ k u, users d !! k = Some u → user_id u = k;
  post_keys : ∀ i p, posts d !! i = Some p → post_id p = i;
  post_owner : ∀ i p, posts d !! i = Some p → is_Some (users d !! userId p)
}.

(** [u] is a stored user that post [p] refers to. *)
Definition owner_of (d : Database) (p : Post) (u : User) : Prop :=
  (∃ k, users d !! k = Some u) ∧ user_id u = userId p.

(** A supplied value the update handlers can hand to a [VARCHAR] column of
    the given width and find there as it is: a value they do not write at
    all (it is falsy), or a string that is not longer than the column.  A
    longer string is refused by the database, and a truthy value that is
    not a string is stored as some text of it. *)
Definition fits_column (width : nat) (v : JsValue) : bool :=
  match v with
  | JStr s => (String.length s <=? width)%nat
  | _ => negb (truthy v)
  end.

(** A criterion that selects no row of [user]. *)
Definition no_such_user (c : Criterion) (d : Database) : Prop :=
  match c with
  | ById k => users d !! k = None
  | Unmatched => True
  | Rejected _ => False
  end.

(** A criterion that selects no row of [post]. *)
Definition no_such_post (c : Criterion) (d : Database) : Prop :=
  match c with
  | ById k => posts d !! k = None
  | Unmatched => True
  | Rejected _ => False
  end.

(** What [AUTO_INCREMENT] guarantees of the counters: every key in use is
    below the next key to be given out. *)
Record sequenced (d : Database) : Prop := mkSequenced {
  user_keys_used : ∀ k, is_Some (users d !! k) → k < user_seq d;
  post_keys_used : ∀ i, is_Some (posts d !! i) → i < post_seq d
}.

(** The label each handler prints before the error in its [catch] block. *)
Definition catch_label (r : Request) : string :=
  match r with
  | GET_users => "Error fetching users:"
  | POST_users _ => "Error creating user:"
  | PUT_users_id _ _ => "Error updating user:"
  | DELETE_users_id _ => "Error deleting user:"
  | POST_posts _ => "Error creating post:"
  | GET_users_id_posts _ => "Error fetching posts:"
  | PUT_posts_id _ _ => "Error updating post:"
  | DELETE_posts_id _ => "Error deleting post:"
  end.

(** The status codes that occur in the handler of each route. *)
Definition statuses (r : Request) : list Z :=
  match r with
  | GET_users | GET_users_id_posts _ => [200; 500]
  | POST_users _ => [201; 500]
  | PUT_users_id _ _ | DELETE_users_id _
  | PUT_posts_id _ _ | DELETE_posts_id _ => [200; 404; 500]
  | POST_posts _ => [201; 400; 404; 500]
  end.

(** The message of a failed attempt to connect, with the error in it. *)
Definition attempt_error (o : Outcome unit) : string :=
  match o with
  | Ok _ => ""
  | Throw err => "Error during Data Source initialization: " +:+ err
  end.

Section Runs.

Variable parseInt : string -> JsValue.
Variable coerce_id : JsValue -> Criterion.

(** The worlds the service can be in: it boots on tables that obey the
    schema, under any schedule, and then serves requests one after the
    other. *)
Inductive reachable : World → Prop :=
| reachable_boot (d : Database) (fs : list (option string)) :
    consistent d → reachable (boot d fs)
| reachable_request (w : World) (r : Request) :
    reachable w → reachable (handle parseInt coerce_id r w).2.

End Runs.

(** ** Start-up: the bounded retry *)

Section Startup.

Local Open Scope nat_scope.

Variable initialize : nat -> Outcome unit.

Lemma replicate_snoc_cons {A} (n : nat) (x : A) (l : list A) :
  replicate n x ++ x :: l = x :: replicate n x ++ l.
Proof. induction n as [|n IH]; simpl; [reflexivity|]. by rewrite IH. Qed.

Lemma connect_loop_exhausted (retries : nat) (p : Process) :
  (∀ j, attempts p ≤ j < attempts p + retries → fails (initialize j) = true) →
  ∃ p', connect_loop initialize retries p = (0, p')
        ∧ attempts p' = attempts p + retries
        ∧ timers p' = replicate retries 5000%Z ++ timers p
        ∧ exit_code p' = exit_code p.
Proof.
  revert p. induction retries as [|r IH]; intros p Hall; simpl.
  - exists p. rewrite Nat.add_0_r. auto.
  - pose proof (Hall (attempts p) ltac:(lia)) as H0.
    destruct (initialize (attempts p)) as [[]|err]; [discriminate|].
    edestruct IH as (p' & Heq & Ha & Ht & He);
      [|exists p'; rewrite Heq; split; [reflexivity|]].
    + simpl. intros j Hj. apply Hall. lia.
    + simpl in *. rewrite Ha, Ht, He. repeat split; [lia|].
      apply replicate_snoc_cons.
Qed.

Lemma connect_loop_connects (retries : nat) (p : Process) (k : nat) :
  k < retries →
  fails (initialize (attempts p + k)) = false →
  (∀ j, j < k → fails (initialize (attempts p + j)) = true) →
  ∃ p', connect_loop initialize retries p = (retries - k, p')
        ∧ attempts p' = S (attempts p + k)
        ∧ timers p' = replicate k 5000%Z ++ timers p
        ∧ exit_code p' = exit_code p.
Proof.
  revert p k. induction retries as [|r IH]; intros p k Hk Hok Hbefore; [lia|].
  simpl. destruct k as [|k].
  - rewrite Nat.add_0_r in Hok.
    destruct (initialize (attempts p)) as [[]|err]; [|discriminate].
    eexists. split; [reflexivity|]. simpl. rewrite Nat.add_0_r. auto.
  - pose proof (Hbefore 0 ltac:(lia)) as H0. rewrite Nat.add_0_r in H0.
    destruct (initialize (attempts p)) as [[]|err]; [discriminate|].
    lazymatch goal with
    | |- context [connect_loop initialize r ?q] =>
        destruct (IH q k) as (p' & Heq & Ha & Ht & He);
          [| | |exists p'; rewrite Heq; split; [reflexivity|]]
    end.
    + lia.
    + simpl. replace (S (attempts p + k)) with (attempts p + S k) by lia.
      exact Hok.
    + simpl. intros j Hj.
      replace (S (attempts p + j)) with (attempts p + S j) by lia.
      apply Hbefore. lia.
    + simpl in *. rewrite Ha, Ht, He. repeat split; [lia|].
      apply replicate_snoc_cons.
Qed.

(** Below any bound, either every attempt fails or some attempt is the
    first to succeed. *)
Lemma all_fail_or_first_success (n : nat) :
  (∀ j, j < n → fails (initialize j) = true)
  ∨ ∃ k, k < n ∧ fails (initialize k) = false
         ∧ ∀ j, j < k → fails (initialize j) = true.
Proof.
  induction n as [|n [Hall|(k & Hk & Hok & Hbefore)]].
  - left. intros j Hj. lia.
  - destruct (fails (initialize n)) eqn:Hn.
    + left. intros j Hj. destruct (decide (j = n)) as [->|]; [done|].
      apply Hall. lia.
    + right. exists n. repeat split; [lia|done|done].
  - right. exists k. repeat split; [lia|done|done].
Qed.

Lemma waited_replicate (n : nat) :
  foldr Z.add 0%Z (replicate n 5000%Z) = (5000 * Z.of_nat n)%Z.
Proof. induction n as [|n IH]; simpl; [reflexivity|]. rewrite IH. lia. Qed.

Lemma initializeDatabase_exhausted :
  (∀ k, k < 10 → fails (initialize k) = true) →
  let p := initializeDatabase initialize in
  attempts p = 10 ∧ timers p = replicate 10 5000%Z
  ∧ exit_code p = Some 1%Z.
Proof.
  intros Hall.
  destruct (connect_loop_exhausted 10 started) as (p' & Heq & Ha & Ht & _).
  { simpl. intros j Hj. apply Hall. lia. }
  unfold initializeDatabase. rewrite Heq. simpl.
  rewrite Ha, Ht. simpl. auto.
Qed.

Lemma initializeDatabase_connected (k : nat) :
  k < 10 →
  fails (initialize k) = false →
  (∀ j, j < k → fails (initialize j) = true) →
  let p := initializeDatabase initialize in
  attempts p = S k ∧ timers p = replicate k 5000%Z ∧ exit_code p = None.
Proof.
  intros Hk Hok Hbefore.
  destruct (connect_loop_connects 10 started k) as (p' & Heq & Ha & Ht & He);
    [done|done|done|].
  unfold initializeDatabase. rewrite Heq.
  destruct (Nat.eqb_spec (10 - k) 0) as [Hz|_]; [lia|].
  simpl. rewrite Ha, Ht, He. simpl. rewrite app_nil_r. auto.
Qed.

(** C3.  The connection loop calls [initialize] at most 10 times and
    every delay it waits is 5000 ms.  When all 10 calls fail it has made
    exactly 10 attempts, waited 10 x 5000 = 50000 ms in total and exits
    with code 1.  When some call among the first 10 succeeds, the loop
    stops at the first one that does: the process has made one attempt
    more than it has waited delays, the last attempt is the successful
    one, and no exit code is set. *)
Theorem initializeDatabase_bounded_retry :
  let p := initializeDatabase initialize in
  attempts p ≤ 10
  ∧ Forall (eq 5000%Z) (timers p)
  ∧ ((∀ k, k < 10 → fails (initialize k) = true) →
     attempts p = 10 ∧ length (timers p) = 10 ∧ waited p = 50000%Z
     ∧ exit_code p = Some 1%Z ∧ 1%Z ≠ 0%Z)
  ∧ (∀ k, k < 10 → fails (initialize k) = false →
     (∀ j, j < k → fails (initialize j) = true) →
     attempts p = S k ∧ length (timers p) = k
     ∧ waited p = (5000 * Z.of_nat k)%Z ∧ exit_code p = None)
  ∧ ((∃ k, k < 10 ∧ fails (initialize k) = false) →
     fails (initialize (attempts p - 1)) = false
     ∧ length (timers p) = attempts p - 1 ∧ exit_code p = None).
Proof.
  intros p.
  assert (Hconn : ∀ k, k < 10 → fails (initialize k) = false →
            (∀ j, j < k → fails (initialize j) = true) →
            attempts p = S k ∧ timers p = replicate k 5000%Z
            ∧ exit_code p = None)
    by (intros k; apply initializeDatabase_connected).
  assert (Hexh : (∀ k, k < 10 → fails (initialize k) = true) →
            attempts p = 10 ∧ timers p = replicate 10 5000%Z
            ∧ exit_code p = Some 1%Z)
    by apply initializeDatabase_exhausted.
  split; [|split; [|split; [|split]]].
  - destruct (all_fail_or_first_success 10) as [Hall|(k & Hk & Hok & Hbefore)].
    + destruct (Hexh Hall) as (Ha & _). lia.
    + destruct (Hconn k) as (Ha & _); [done..|]. lia.
  - destruct (all_fail_or_first_success 10) as [Hall|(k & Hk & Hok & Hbefore)].
    + destruct (Hexh Hall) as (_ & Ht & _). rewrite Ht.
      by apply Forall_replicate.
    + destruct (Hconn k) as (_ & Ht & _); [done..|]. rewrite Ht.
      by apply Forall_replicate.
  - intros Hall. destruct (Hexh Hall) as (Ha & Ht & He).
    unfold waited. rewrite Ha, Ht, He. done.
  - intros k Hk Hok Hbefore.
    destruct (Hconn k) as (Ha & Ht & He); [done..|].
    unfold waited. rewrite Ha, Ht, He, length_replicate, waited_replicate.
    done.
  - intros (j & Hj & Hjok).
    destruct (all_fail_or_first_success 10) as [Hall|(k & Hk & Hok & Hbefore)].
    + rewrite Hall in Hjok; done.
    + destruct (Hconn k) as (Ha & Ht & He); [done..|].
      rewrite Ha, Ht, He, length_replicate. simpl. rewrite Nat.sub_0_r. done.
Qed.

End Startup.

(** ** The storage layer *)

Lemma round_trip_cases {A} (q : Query A) (w : World) :
  (∃ e, round_trip q w = (Throw e, failed w e (db w)))
  ∨ (∃ e d, q (db w) = (Throw e, d) ∧ round_trip q w = (Throw e, failed w e d))
  ∨ (∃ a d, q (db w) = (Ok a, d) ∧ round_trip q w = (Ok a, answered w d)).
Proof.
  unfold round_trip.
  destruct (faults w) as [|[e|] fs]; [| left; eauto |];
    (destruct (q (db w)) as [[a|e] d]; [right; right; eauto | right; left; eauto]).
Qed.

Lemma round_trip_calm {A} (q : Query A) (w : World) :
  calm 1 w = true →
  round_trip q w =
    match q (db w) with
    | (Ok a, d) => (Ok a, answered w d)
    | (Throw e, d) => (Throw e, failed w e d)
    end.
Proof.
  unfold calm, round_trip. destruct (faults w) as [|[e|] fs]; simpl; done.
Qed.

Lemma calm_answered (n : nat) (w : World) (d : Database) :
  calm (S n) w = true → calm n (answered w d) = true.
Proof.
  unfold calm, answered. simpl. destruct (faults w) as [|f fs]; simpl.
  - by destruct n.
  - by intros [_ ?]%andb_prop.
Qed.

Lemma calm_first (n : nat) (w : World) : calm (S n) w = true → calm 1 w = true.
Proof.
  unfold calm. destruct (faults w) as [|f fs]; simpl; [done|].
  intros [-> _]%andb_prop. done.
Qed.

Lemma thrown_grows (e : string) (es : list string) : e :: es ≠ es.
Proof. intros H. apply (f_equal length) in H. simpl in H. lia. Qed.

(** *** Every query keeps the tables consistent *)

Lemma consistent_empty : consistent empty_db.
Proof. split; simpl; intros ? ?; by rewrite lookup_empty. Qed.

Lemma select_users_consistent d out d' :
  select_users d = (out, d') → consistent d → consistent d'.
Proof. unfold select_users. intros; by simplify_eq. Qed.

Lemma select_user_consistent c d out d' :
  select_user c d = (out, d') → consistent d → consistent d'.
Proof. unfold select_user. destruct c; intros; by simplify_eq. Qed.

Lemma select_post_consistent c d out d' :
  select_post c d = (out, d') → consistent d → consistent d'.
Proof. unfold select_post. destruct c; intros; by simplify_eq. Qed.

Lemma select_posts_of_consistent c d out d' :
  select_posts_of c d = (out, d') → consistent d → consistent d'.
Proof. unfold select_posts_of. destruct c; intros; by simplify_eq. Qed.

Lemma insert_user_consistent first last mail d out d' :
  insert_user first last mail d = (out, d') → consistent d → consistent d'.
Proof.
  unfold insert_user. intros Hq [Hu Hp Ho].
  destruct (not_null first && not_null last && not_null mail);
    simplify_eq; split; simpl; try done.
  - intros k u. rewrite lookup_insert. case_decide; naive_solver.
  - intros i p Hi. rewrite lookup_insert_is_Some'. right. eauto.
Qed.

Lemma update_user_consistent u d out d' :
  update_user u d = (out, d') → consistent d → consistent d'.
Proof.
  unfold update_user. intros Hq [Hu Hp Ho]. simplify_eq; split; simpl; try done.
  - intros k v. rewrite lookup_insert. case_decide; naive_solver.
  - intros i p Hi. rewrite lookup_insert_is_Some'. right. eauto.
Qed.

Lemma delete_user_consistent u d out d' :
  delete_user u d = (out, d') → consistent d → consistent d'.
Proof.
  unfold delete_user. intros Hq [Hu Hp Ho]. simplify_eq; split; simpl.
  - intros k v. rewrite lookup_delete. case_decide; naive_solver.
  - intros i p [Hi _]%map_lookup_filter_Some. eauto.
  - intros i p [Hi Hne]%map_lookup_filter_Some. simpl in Hne.
    rewrite lookup_delete_ne by done. eauto.
Qed.

Lemma insert_post_consistent t desc u d out d' :
  insert_post t desc u d = (out, d') → consistent d → consistent d'.
Proof.
  unfold insert_post. intros Hq [Hu Hp Ho].
  destruct (not_null t && not_null desc); [|by simplify_eq].
  destruct (users d !! user_id u) as [v|] eqn:Hv; simplify_eq; [|done].
  split; simpl; try done.
  - intros i p. rewrite lookup_insert. case_decide; naive_solver.
  - intros i p. rewrite lookup_insert. case_decide; [|by eauto].
    intros. simplify_eq. simpl. eauto.
Qed.

Lemma update_post_consistent p d out d' :
  update_post p d = (out, d') →
  is_Some (users d !! userId p) → consistent d → consistent d'.
Proof.
  unfold update_post. intros Hq Hown [Hu Hp Ho]. simplify_eq; split; simpl; try done.
  - intros i q. rewrite lookup_insert. case_decide; naive_solver.
  - intros i q. rewrite lookup_insert. case_decide; [|by eauto].
    intros. by simplify_eq.
Qed.

Lemma delete_post_consistent p d out d' :
  delete_post p d = (out, d') → consistent d → consistent d'.
Proof.
  unfold delete_post. intros Hq [Hu Hp Ho]. simplify_eq; split; simpl; try done.
  - intros i q. rewrite lookup_delete. case_decide; naive_solver.
  - intros i q. rewrite lookup_delete. case_decide; [done|by eauto].
Qed.

(** In a consistent database a post has exactly one owner. *)
Lemma consistent_one_owner d i p :
  consistent d → posts d !! i = Some p →
  ∃ u, owner_of d p u ∧ ∀ u', owner_of d p u' → u' = u.
Proof.
  intros [Hu Hp Ho] Hi. destruct (Ho i p Hi) as [u Hlook].
  exists u. split.
  - split; [eauto|]. by apply Hu in Hlook.
  - intros u' [[k Hk] Hid]. pose proof (Hu _ _ Hk) as Hkey.
    rewrite Hid in Hkey. subst k. congruence.
Qed.

(** ** The handlers *)

Ltac unfold_handlers :=
  unfold handle, get_users, post_users, put_users_id, delete_users_id,
    post_posts, get_users_id_posts, put_posts_id, delete_posts_id,
    try_catch, bind, ret, console_error.

(** Case analysis on the next step of the handler in the goal: the guard
    of [POST /posts], a round trip (failed by the schedule, refused by the
    database, or answered), or the test on what a lookup found. *)
Ltac trip :=
  match goal with
  | |- context [if ?guard then (fun w => (Ok _, w)) else _] =>
      destruct guard eqn:?
  | |- context [round_trip ?q ?w] =>
      let Hq := fresh "Hq" in
      destruct (round_trip_cases q w)
        as [(? & ->) | [(? & ? & Hq & ->) | (? & ? & Hq & ->)]];
      cbn [fst snd] in *
  | |- context [match ?found with Some _ => _ | None => _ end] =>
      is_var found; destruct found
  end.

(** Inversion of the equations [trip] leaves about the queries. *)
Ltac query :=
  repeat match goal with
  | H : select_user ?c _ = _ |- _ => unfold select_user in H; destruct c
  | H : select_post ?c _ = _ |- _ => unfold select_post in H; destruct c
  | H : select_posts_of ?c _ = _ |- _ => unfold select_posts_of in H; destruct c
  | H : insert_user _ _ _ _ = _ |- _ =>
      unfold insert_user in H;
      destruct (not_null _ && not_null _ && not_null _)
  | H : insert_post _ _ _ ?d = _ |- _ =>
      unfold insert_post in H;
      destruct (not_null _ && not_null _);
      [destruct (users d !! _) eqn:?|]
  | H : select_users _ = _ |- _ => unfold select_users in H
  | H : update_user _ _ = _ |- _ => unfold update_user in H
  | H : delete_user _ _ = _ |- _ => unfold delete_user in H
  | H : update_post _ _ = _ |- _ => unfold update_post in H
  | H : delete_post _ _ = _ |- _ => unfold delete_post in H
  end; simplify_eq.

Section Service.

Variable parseInt : string -> JsValue.
Variable coerce_id : JsValue -> Criterion.

Local Abbreviation handle := (handle parseInt coerce_id).
Local Abbreviation where_id := (where_id coerce_id).

(** A handler always answers: nothing thrown inside it escapes. *)
Lemma handle_responds (r : Request) (w : World) :
  ∃ resp, (handle r w).1 = Ok resp.
Proof. destruct r; unfold_handlers; repeat trip; simpl; eauto. Qed.

(** A fault the schedule holds for the next round trip is raised, unless
    the request is turned away before any round trip. *)
Lemma scheduled_fault_is_raised (r : Request) (w : World) e fs :
  faults w = Some e :: fs →
  (thrown (handle r w).2 = e :: thrown w
   ∧ (handle r w).1 = Ok (respond 500 (Message (generic_message r))))
  ∨ (∃ body, r = POST_posts body ∧ handle r w =
       (Ok (respond 400 (Message "Title, description, and userId are required")), w)).
Proof.
  intros Hf. destruct r; unfold_handlers; unfold round_trip; rewrite ?Hf;
    simpl; auto.
  destruct (_ || _); [right; eauto|left]. by rewrite Hf.
Qed.

(** A handler answers 500 only when the storage layer has raised an error
    while it ran. *)
Lemma server_error_only_after_failure (r : Request) (w : World) (resp : Response) :
  (handle r w).1 = Ok resp →
  status resp = 500 →
  thrown (handle r w).2 ≠ thrown w.
Proof.
  destruct r; unfold_handlers; repeat trip; simpl; intros;
    simplify_eq; query; simpl in *; try done; apply thrown_grows.
Qed.

(** C9.  When a handler answers 404, the database after the request is
    the database before it.  This holds of every route, so in particular
    of the five that look a row up by identity before they write. *)
Theorem not_found_leaves_database (r : Request) (w : World) (resp : Response) :
  (handle r w).1 = Ok resp →
  status resp = 404 →
  db (handle r w).2 = db w.
Proof.
  destruct r; unfold_handlers; repeat trip; simpl; intros;
    simplify_eq; query; done.
Qed.


(** C4.  [POST /posts] with a body in which [title], [description] or
    [userId] is missing or falsy answers 400 and hands the world back as
    it got it: the database, and also the schedule of the storage layer,
    of which no entry is used, since no round trip is made. *)
Theorem post_posts_requires_fields (body : Body) (w : World) :
  truthy (prop body "title") = false
  ∨ truthy (prop body "description") = false
  ∨ truthy (prop body "userId") = false →
  handle (POST_posts body) w =
    (Ok (respond 400 (Message "Title, description, and userId are required")), w).
Proof.
  intros Hfalsy. unfold_handlers.
  destruct Hfalsy as [-> | [-> | ->]]; simpl; rewrite ?orb_true_r; done.
Qed.

(** C5.  [POST /posts] with truthy [title], [description] and [userId],
    when the lookup of [userId] selects no user: the tables are left as
    they were, whatever the storage layer does, and when the lookup is
    answered the response is 404. *)
Theorem post_posts_unknown_user (body : Body) (w : World) :
  truthy (prop body "title") = true →
  truthy (prop body "description") = true →
  truthy (prop body "userId") = true →
  no_such_user (where_id (prop body "userId")) (db w) →
  db (handle (POST_posts body) w).2 = db w
  ∧ (calm 1 w = true →
     (handle (POST_posts body) w).1 =
       Ok (respond 404 (Message "User not found"))).
Proof.
  intros Ht Hd Hu Hnone. unfold_handlers. rewrite Ht, Hd, Hu. simpl.
  split.
  - repeat trip; simpl; query; simpl in *; congruence.
  - intros Hcalm. rewrite round_trip_calm by done.
    unfold select_user. destruct (where_id _); simpl in *; [|done..].
    by rewrite Hnone.
Qed.

Lemma posts_of_owner_spec (d : Database) (k : Z) (p : Post) :
  p ∈ (map_to_list (filter (fun kp => userId kp.2 = k) (posts d))).*2
  ↔ ∃ i, posts d !! i = Some p ∧ userId p = k.
Proof.
  rewrite list_elem_of_fmap. split.
  - intros ([i q] & -> & Hin). apply elem_of_map_to_list in Hin.
    apply map_lookup_filter_Some in Hin as [Hi Hk]. eauto.
  - intros (i & Hi & Hk). exists (i, p). split; [done|].
    apply elem_of_map_to_list, map_lookup_filter_Some. done.
Qed.

Lemma posts_of_owner_NoDup (d : Database) (k : Z) :
  consistent d →
  NoDup ((map_to_list (filter (fun kp => userId kp.2 = k) (posts d))).*2).
Proof.
  intros [_ Hp _]. apply NoDup_fmap_2_strong; [|apply NoDup_map_to_list].
  intros [i p] [j q] Hi Hj Heq. simpl in Heq. subst q.
  apply elem_of_map_to_list, map_lookup_filter_Some in Hi as [Hi _].
  apply elem_of_map_to_list, map_lookup_filter_Some in Hj as [Hj _].
  apply Hp in Hi, Hj. congruence.
Qed.

(** C6.  [GET /users/:id/posts] never writes and never answers 404: its
    status is 200 or 500.  When the path parameter selects the key [k]
    and the round trip is answered, the response is 200 with a list that
    holds a post exactly when the post is stored with [userId = k] (each
    such post once, the tables being consistent); so the list is empty
    when no stored post has [userId = k], as is the case when no user
    [k] exists. *)
Theorem get_users_id_posts_lists_owned (id : string) (w : World) :
  (∃ resp, (handle (GET_users_id_posts id) w).1 = Ok resp
           ∧ status resp ≠ 404 ∧ (status resp = 200 ∨ status resp = 500))
  ∧ db (handle (GET_users_id_posts id) w).2 = db w
  ∧ ∀ k, where_id (parseInt id) = ById k → calm 1 w = true →
      ∃ ps, (handle (GET_users_id_posts id) w).1 = Ok (respond 200 (PostsJson ps))
            ∧ (∀ p, p ∈ ps ↔ ∃ i, posts (db w) !! i = Some p ∧ userId p = k)
            ∧ (consistent (db w) → NoDup ps)
            ∧ ((∀ i p, posts (db w) !! i = Some p → userId p ≠ k) → ps = [])
            ∧ (consistent (db w) → users (db w) !! k = None → ps = []).
Proof.
  split; [|split].
  - unfold_handlers; repeat trip; simpl; eexists; (split; [done|]);
      simpl; split; auto; lia.
  - unfold_handlers; repeat trip; simpl; query; done.
  - intros k Hk Hcalm. unfold_handlers. rewrite round_trip_calm by done.
    unfold select_posts_of. rewrite Hk. simpl.
    eexists. split; [reflexivity|].
    assert (Hnone : (∀ i p, posts (db w) !! i = Some p → userId p ≠ k) →
              (map_to_list (filter (fun kp => userId kp.2 = k) (posts (db w)))).*2 = []).
    { intros Hno. apply elem_of_nil_inv. intros p Hin.
      apply posts_of_owner_spec in Hin as (i & Hi & Hown).
      by apply (Hno i p). }
    split; [apply posts_of_owner_spec|].
    split; [apply posts_of_owner_NoDup|].
    split; [exact Hnone|].
    intros [_ _ Ho] Huser. apply Hnone. intros i p Hi Hown.
    destruct (Ho i p Hi) as [u Hu]. congruence.
Qed.



Lemma assign_user_fields_spec (u : User) (first last mail : JsValue) :
  assign_user_fields u first last mail =
    mkUser (user_id u)
      (if truthy first then first else firstName u)
      (if truthy last then last else lastName u)
      (if truthy mail then mail else email u).
Proof.
  unfold assign_user_fields.
  destruct u, (truthy first), (truthy last), (truthy mail); reflexivity.
Qed.

Lemma put_users_id_answered (id : string) (body : Body) (w : World) k u :
  where_id (parseInt id) = ById k →
  users (db w) !! k = Some u →
  calm 2 w = true →
  let u' := assign_user_fields u (prop body "firstName")
              (prop body "lastName") (prop body "email") in
  handle (PUT_users_id id body) w =
    (Ok (respond 200 (UserJson u')),
     answered (answered w (db w)) (update_user u' (db w)).2).
Proof.
  intros Hk Hu Hcalm. unfold_handlers. rewrite Hk.
  rewrite round_trip_calm by (by eapply calm_first). simpl. rewrite Hu.
  rewrite round_trip_calm by (by apply calm_answered). done.
Qed.

(** C2.  [PUT /users/:id] on a stored user [u], both round trips being
    answered and every truthy supplied field being a string that fits its
    column (100 characters): the response is 200 with the record [u']
    whose every field is the supplied value when that value is truthy and
    the stored one otherwise, and [u'] is what the row of the user holds
    afterwards, the rest of the database being as before.  A supplied
    empty string is falsy, so it leaves the stored field as it was. *)
Theorem put_users_id_overwrites_truthy (id : string) (body : Body) (w : World) k u :
  where_id (parseInt id) = ById k →
  users (db w) !! k = Some u →
  consistent (db w) →
  calm 2 w = true →
  fits_column 100 (prop body "firstName") = true →
  fits_column 100 (prop body "lastName") = true →
  fits_column 100 (prop body "email") = true →
  let supplied := prop body in
  let u' :=
    mkUser (user_id u)
      (if truthy (supplied "firstName") then supplied "firstName" else firstName u)
      (if truthy (supplied "lastName") then supplied "lastName" else lastName u)
      (if truthy (supplied "email") then supplied "email" else email u) in
  let w' := (handle (PUT_users_id id body) w).2 in
  (handle (PUT_users_id id body) w).1 = Ok (respond 200 (UserJson u'))
  ∧ db w' = {| users := <[k := u']> (users (db w)); posts := posts (db w);
               user_seq := user_seq (db w); post_seq := post_seq (db w) |}
  ∧ users (db w') !! k = Some u'
  ∧ (supplied "firstName" = JStr "" → firstName u' = firstName u)
  ∧ (supplied "lastName" = JStr "" → lastName u' = lastName u)
  ∧ (supplied "email" = JStr "" → email u' = email u).
Proof.
  intros Hk Hu Hcons Hcalm _ _ _ supplied u' w'.
  assert (Hid : user_id u = k) by (by eapply user_keys).
  subst w'. rewrite (put_users_id_answered id body w k u) by done.
  rewrite assign_user_fields_spec. fold supplied. fold u'.
  cbn [fst snd answered update_user db users].
  replace (user_id u') with k by done.
  split; [done|]. split; [done|]. split; [apply lookup_insert_eq|].
  subst u'. cbn [firstName lastName email].
  repeat split; intros ->; done.
Qed.

(** C10.  [PUT /users/:id] on a stored user with a body that supplies no
    truthy [firstName], [lastName] or [email], both round trips being
    answered: the response is 200 with the stored record, and the
    database after the request is the database before it. *)
Theorem put_users_id_no_truthy_field_is_identity
    (id : string) (body : Body) (w : World) k u :
  where_id (parseInt id) = ById k →
  users (db w) !! k = Some u →
  consistent (db w) →
  calm 2 w = true →
  truthy (prop body "firstName") = false →
  truthy (prop body "lastName") = false →
  truthy (prop body "email") = false →
  (handle (PUT_users_id id body) w).1 = Ok (respond 200 (UserJson u))
  ∧ db (handle (PUT_users_id id body) w).2 = db w
  ∧ users (db (handle (PUT_users_id id body) w).2) !! k = Some u.
Proof.
  intros Hk Hu Hcons Hcalm Hf Hl He.
  assert (Hid : user_id u = k) by (by eapply user_keys).
  rewrite (put_users_id_answered id body w k u) by done.
  rewrite assign_user_fields_spec, Hf, Hl, He. simpl.
  assert (Hsame : mkUser (user_id u) (firstName u) (lastName u) (email u) = u)
    by (by destruct u).
  rewrite Hsame, Hid, insert_id by done.
  repeat split; [|done]. by destruct (db w).
Qed.

(** Serving a request keeps the tables consistent, whatever the
    request and whatever the storage layer does. *)
Lemma handle_consistent (r : Request) (w : World) :
  consistent (db w) → consistent (db (handle r w).2).
Proof.
  intros Hc.
  destruct r; unfold_handlers; repeat trip; cbn [db answered failed fst snd] in *;
    eauto using select_users_consistent, select_user_consistent,
      select_post_consistent, select_posts_of_consistent,
      insert_user_consistent, update_user_consistent,
      delete_user_consistent, insert_post_consistent,
      delete_post_consistent.
  all: eapply update_post_consistent; [eassumption| |];
    unfold select_post in *; destruct (where_id _); simplify_eq;
    try done; cbn [userId]; by eapply post_owner.
Qed.


(** The schema holds in every world the service can reach. *)
Lemma reachable_consistent (w : World) :
  reachable parseInt coerce_id w → consistent (db w).
Proof.
  induction 1 as [d fs Hd | w r _ IH]; [done|]. by apply handle_consistent.
Qed.

(** What [DELETE /users/:id] does when its lookup selects the stored
    user [u] and both round trips are answered. *)
Lemma delete_users_id_answered (id : string) (w : World) k u :
  where_id (parseInt id) = ById k →
  users (db w) !! k = Some u →
  calm 2 w = true →
  handle (DELETE_users_id id) w =
    (Ok (respond 200 (Message "User deleted successfully")),
     answered (answered w (db w)) (delete_user u (db w)).2).
Proof.
  intros Hk Hu Hcalm. unfold_handlers. rewrite Hk.
  rewrite round_trip_calm by (by eapply calm_first). simpl. rewrite Hu.
  rewrite round_trip_calm by (by apply calm_answered). done.
Qed.

(** C1.  In every world the service can reach, every stored post has
    exactly one owner: one stored user whose identity is the post's
    [userId].  And [DELETE /users/:id] on a stored user, both round
    trips being answered, answers 200 and removes the row of that user
    and, with it, exactly the posts whose [userId] is its key; every
    post that remains still has its owner. *)
Theorem posts_always_owned_and_delete_cascades :
  (∀ w, reachable parseInt coerce_id w →
     ∀ i p, posts (db w) !! i = Some p →
       ∃ u, owner_of (db w) p u ∧ ∀ u', owner_of (db w) p u' → u' = u)
  ∧ (∀ w id k u,
       reachable parseInt coerce_id w →
       where_id (parseInt id) = ById k →
       users (db w) !! k = Some u →
       calm 2 w = true →
       let w' := (handle (DELETE_users_id id) w).2 in
       (handle (DELETE_users_id id) w).1 =
         Ok (respond 200 (Message "User deleted successfully"))
       ∧ users (db w') = delete k (users (db w))
       ∧ (∀ i p, posts (db w') !! i = Some p
                 ↔ posts (db w) !! i = Some p ∧ userId p ≠ k)
       ∧ (∀ i p, posts (db w') !! i = Some p
                 → is_Some (users (db w') !! userId p))).
Proof.
  split.
  - intros w Hw i p Hi.
    by eapply consistent_one_owner; [apply reachable_consistent|].
  - intros w id k u Hw Hk Hu Hcalm w'.
    pose proof (reachable_consistent w Hw) as Hc.
    assert (Hid : user_id u = k) by (by eapply user_keys).
    assert (Hc' : consistent (db w')) by (by apply handle_consistent).
    subst w'. rewrite (delete_users_id_answered id w k u) in * by done.
    cbn [fst snd answered delete_user db users posts] in *. rewrite Hid in *.
    split; [done|]. split; [done|]. split.
    + intros i p. by rewrite map_lookup_filter_Some.
    + intros i p Hi. by eapply (post_owner _ Hc').
Qed.

End Service.


(** ** The statements on the end-to-end run *)

Lemma one_user_one_post_reachable :
  reachable parse_decimal no_coercion one_user_one_post.
Proof.
  unfold one_user_one_post, serve.
  do 2 apply reachable_request. apply reachable_boot, consistent_empty.
Qed.

Lemma one_user_one_post_consistent : consistent (db one_user_one_post).
Proof. eapply reachable_consistent, one_user_one_post_reachable. Qed.

Lemma posts_always_owned_and_delete_cascades_witness :
  reachable parse_decimal no_coercion one_user_one_post
  ∧ where_id no_coercion (parse_decimal "1") = ById 1
  ∧ users (db one_user_one_post) !! 1 = Some user_1
  ∧ calm 2 one_user_one_post = true
  ∧ (∃ u, owner_of (db one_user_one_post) post_1 u
          ∧ ∀ u', owner_of (db one_user_one_post) post_1 u' → u' = u)
  ∧ (handle parse_decimal no_coercion (DELETE_users_id "1") one_user_one_post).1
    = Ok (respond 200 (Message "User deleted successfully"))
  ∧ users (db (serve (DELETE_users_id "1") one_user_one_post))
    = delete 1 (users (db one_user_one_post))
  ∧ (∀ i p, posts (db (serve (DELETE_users_id "1") one_user_one_post)) !! i = Some p
            ↔ posts (db one_user_one_post) !! i = Some p ∧ userId p ≠ 1).
Proof.
  destruct (posts_always_owned_and_delete_cascades parse_decimal no_coercion)
    as [Howned Hcascade].
  split; [exact one_user_one_post_reachable|].
  split; [reflexivity|]. split; [reflexivity|]. split; [reflexivity|].
  split.
  - apply (Howned one_user_one_post one_user_one_post_reachable 1 post_1).
    reflexivity.
  - destruct (Hcascade one_user_one_post "1"%string 1 user_1
                one_user_one_post_reachable eq_refl eq_refl eq_refl)
      as (Hout & Husers & Hposts & _).
    split; [exact Hout|]. split; [exact Husers|exact Hposts].
Defined.

Lemma put_users_id_overwrites_truthy_witness :
  where_id no_coercion (parse_decimal "1") = ById 1
  ∧ users (db one_user_one_post) !! 1 = Some user_1
  ∧ consistent (db one_user_one_post)
  ∧ calm 2 one_user_one_post = true
  ∧ fits_column 100 (prop rename_body "firstName") = true
  ∧ fits_column 100 (prop rename_body "lastName") = true
  ∧ fits_column 100 (prop rename_body "email") = true
  ∧ (handle parse_decimal no_coercion
       (PUT_users_id "1" rename_body)
       one_user_one_post).1
    = Ok (respond 200 (UserJson (mkUser 1 (JStr "A") (JStr "Z") (JStr "a@b.com"))))
  ∧ users (db (serve
       (PUT_users_id "1" rename_body)
       one_user_one_post)) !! 1
    = Some (mkUser 1 (JStr "A") (JStr "Z") (JStr "a@b.com")).
Proof.
  split; [reflexivity|]. split; [reflexivity|].
  split; [exact one_user_one_post_consistent|]. split; [reflexivity|].
  split; [reflexivity|]. split; [reflexivity|]. split; [reflexivity|].
  destruct (put_users_id_overwrites_truthy parse_decimal no_coercion "1"
              rename_body
              one_user_one_post 1 user_1 eq_refl eq_refl
              one_user_one_post_consistent eq_refl eq_refl eq_refl eq_refl)
    as (Hout & _ & Hrow & _).
  split; [exact Hout|exact Hrow].
Defined.

Lemma initializeDatabase_bounded_retry_witness :
  ((∀ k, (k < 10)%nat → fails (never_up k) = true)
   ∧ attempts (initializeDatabase never_up) = 10%nat
   ∧ waited (initializeDatabase never_up) = 50000
   ∧ exit_code (initializeDatabase never_up) = Some 1)
  ∧ ((3 < 10)%nat
     ∧ fails (up_at_fourth 3) = false
     ∧ (∀ j, (j < 3)%nat → fails (up_at_fourth j) = true)
     ∧ attempts (initializeDatabase up_at_fourth) = 4%nat
     ∧ waited (initializeDatabase up_at_fourth) = 15000
     ∧ exit_code (initializeDatabase up_at_fourth) = None).
Proof.
  assert (Hdown : ∀ k, (k < 10)%nat → fails (never_up k) = true)
    by (intros k _; reflexivity).
  assert (Hbefore : ∀ j, (j < 3)%nat → fails (up_at_fourth j) = true).
  { intros j Hj. unfold up_at_fourth.
    destruct (Nat.ltb_spec j 3) as [_|Hge]; [reflexivity|lia]. }
  split.
  - destruct (initializeDatabase_bounded_retry never_up) as (_ & _ & Hall & _).
    destruct (Hall Hdown) as (Ha & _ & Hw & He & _). auto.
  - destruct (initializeDatabase_bounded_retry up_at_fourth)
      as (_ & _ & _ & Hfirst & _).
    destruct (Hfirst 3%nat ltac:(lia) eq_refl Hbefore) as (Ha & _ & Hw & He).
    split; [lia|]. split; [reflexivity|]. split; [exact Hbefore|].
    split; [exact Ha|]. split; [exact Hw|exact He].
Defined.

Lemma post_posts_requires_fields_witness :
  truthy (prop post_without_owner_body "userId")
  = false
  ∧ handle parse_decimal no_coercion
      (POST_posts post_without_owner_body)
      outage
    = (Ok (respond 400 (Message "Title, description, and userId are required")),
       outage).
Proof.
  split; [reflexivity|].
  apply (post_posts_requires_fields parse_decimal no_coercion).
  right; right; reflexivity.
Defined.

Lemma post_posts_unknown_user_witness :
  no_such_user (where_id no_coercion (JNum 7)) (db one_user_one_post)
  ∧ calm 1 one_user_one_post = true
  ∧ db (serve (POST_posts post_of_stranger_body)
          one_user_one_post)
    = db one_user_one_post
  ∧ (handle parse_decimal no_coercion
       (POST_posts post_of_stranger_body)
       one_user_one_post).1
    = Ok (respond 404 (Message "User not found")).
Proof.
  split; [reflexivity|]. split; [reflexivity|].
  destruct (post_posts_unknown_user parse_decimal no_coercion
              post_of_stranger_body
              one_user_one_post eq_refl eq_refl eq_refl eq_refl)
    as [Hdb Hout].
  split; [exact Hdb|exact (Hout eq_refl)].
Defined.

Lemma get_users_id_posts_lists_owned_witness :
  (where_id no_coercion (parse_decimal "1") = ById 1
   ∧ calm 1 one_user_one_post = true
   ∧ ∃ ps, (handle parse_decimal no_coercion (GET_users_id_posts "1")
              one_user_one_post).1 = Ok (respond 200 (PostsJson ps))
           ∧ post_1 ∈ ps)
  ∧ (where_id no_coercion (parse_decimal "7") = ById 7
     ∧ users (db one_user_one_post) !! 7 = None
     ∧ (handle parse_decimal no_coercion (GET_users_id_posts "7")
          one_user_one_post).1 = Ok (respond 200 (PostsJson []))).
Proof.
  split.
  - split; [reflexivity|]. split; [reflexivity|].
    destruct (get_users_id_posts_lists_owned parse_decimal no_coercion "1"
                one_user_one_post) as (_ & _ & Hlist).
    destruct (Hlist 1 eq_refl eq_refl) as (ps & Hout & Hin & _).
    exists ps. split; [exact Hout|]. apply Hin. exists 1. split; reflexivity.
  - split; [reflexivity|]. split; [reflexivity|].
    destruct (get_users_id_posts_lists_owned parse_decimal no_coercion "7"
                one_user_one_post) as (_ & _ & Hlist).
    destruct (Hlist 7 eq_refl eq_refl) as (ps & Hout & _ & _ & _ & Hnone).
    rewrite <- (Hnone one_user_one_post_consistent eq_refl). exact Hout.
Defined.



Lemma not_found_leaves_database_witness :
  (handle parse_decimal no_coercion (DELETE_users_id "7") one_user_one_post).1
  = Ok (respond 404 (Message "User not found"))
  ∧ status (respond 404 (Message "User not found")) = 404
  ∧ db (handle parse_decimal no_coercion (DELETE_users_id "7") one_user_one_post).2
    = db one_user_one_post.
Proof.
  split; [reflexivity|]. split; [reflexivity|].
  exact (not_found_leaves_database parse_decimal no_coercion
           (DELETE_users_id "7") one_user_one_post
           (respond 404 (Message "User not found")) eq_refl eq_refl).
Defined.

Lemma put_users_id_no_truthy_field_is_identity_witness :
  where_id no_coercion (parse_decimal "1") = ById 1
  ∧ users (db one_user_one_post) !! 1 = Some user_1
  ∧ consistent (db one_user_one_post)
  ∧ calm 2 one_user_one_post = true
  ∧ truthy (prop empty_body "firstName") = false
  ∧ (handle parse_decimal no_coercion (PUT_users_id "1" empty_body) one_user_one_post).1
    = Ok (respond 200 (UserJson user_1))
  ∧ db (handle parse_decimal no_coercion (PUT_users_id "1" empty_body) one_user_one_post).2
    = db one_user_one_post.
Proof.
  split; [reflexivity|]. split; [reflexivity|].
  split; [exact one_user_one_post_consistent|]. split; [reflexivity|].
  split; [reflexivity|].
  destruct (put_users_id_no_truthy_field_is_identity parse_decimal no_coercion
              "1" empty_body one_user_one_post 1 user_1 eq_refl eq_refl
              one_user_one_post_consistent eq_refl eq_refl eq_refl eq_refl)
    as (Hout & Hdb & _).
  split; [exact Hout|exact Hdb].
Defined.

(** The end-to-end run, continued: once the user is deleted, the list of
    the user's posts is empty, with status 200. *)
Example end_to_end_after_delete :
  (handle parse_decimal no_coercion (GET_users_id_posts "1")
     (serve (DELETE_users_id "1") one_user_one_post)).1
  = Ok (respond 200 (PostsJson [])).
Proof. vm_compute. reflexivity. Qed.

(** ** Further properties of the handlers *)

Section Coverage.

Variable parseInt : string -> JsValue.
Variable coerce_id : JsValue -> Criterion.

Local Abbreviation handle := (handle parseInt coerce_id).
Local Abbreviation where_id := (where_id coerce_id).

(** X1.  Every handler answers, whatever the request and whatever the
    storage layer does (no error escapes it), and the status of the
    response is one of the codes of its route: 200 or 500 for the two
    listings, 201 or 500 for [POST /users], 200, 404 or 500 for the updates
    and deletions, and 201, 400, 404 or 500 for [POST /posts]. *)
Theorem status_is_of_the_route (r : Request) (w : World) :
  ∃ resp, (handle r w).1 = Ok resp ∧ status resp ∈ statuses r.
Proof.
  destruct r; unfold_handlers; repeat trip; simpl; eexists;
    (split; [reflexivity|]); simpl; set_solver.
Qed.

(** X2.  A handler prints to the console exactly when it answers 500:
    then it prints one line, the label of its route followed by the very
    error the storage layer raised during the request; otherwise nothing
    was raised and nothing is printed. *)
Theorem console_holds_the_error (r : Request) (w : World) (resp : Response) :
  (handle r w).1 = Ok resp →
  if status resp =? 500
  then ∃ e, thrown (handle r w).2 = e :: thrown w
            ∧ console (handle r w).2
              = (catch_label r +:+ " " +:+ e) :: console w
  else thrown (handle r w).2 = thrown w
       ∧ console (handle r w).2 = console w.
Proof.
  destruct r; unfold_handlers; repeat trip; simpl; intros; simplify_eq;
    simpl; eauto.
Qed.

(** X3.  Which request can write which table.  The rows of [user] change
    only under [POST /users], [PUT /users/:id] and [DELETE /users/:id];
    the rows of [post] only under [POST /posts], [PUT /posts/:id],
    [DELETE /posts/:id] and, by the cascade, [DELETE /users/:id]. *)
Theorem tables_written_by_route (r : Request) (w : World) :
  match r with
  | GET_users | GET_users_id_posts _ => db (handle r w).2 = db w
  | POST_users _ | PUT_users_id _ _ =>
      posts (db (handle r w).2) = posts (db w)
      ∧ post_seq (db (handle r w).2) = post_seq (db w)
  | POST_posts _ | PUT_posts_id _ _ | DELETE_posts_id _ =>
      users (db (handle r w).2) = users (db w)
      ∧ user_seq (db (handle r w).2) = user_seq (db w)
  | DELETE_users_id _ =>
      user_seq (db (handle r w).2) = user_seq (db w)
      ∧ post_seq (db (handle r w).2) = post_seq (db w)
  end.
Proof.
  destruct r; unfold_handlers; repeat trip; simpl; query; simpl; done.
Qed.

(** *** The counters *)

Lemma sequenced_empty : sequenced empty_db.
Proof. split; simpl; intros ? [? H]; by rewrite lookup_empty in H. Qed.

Lemma insert_user_sequenced first last mail d out d' :
  insert_user first last mail d = (out, d') → sequenced d → sequenced d'.
Proof.
  unfold insert_user. intros Hq [Hu Hp].
  destruct (not_null first && not_null last && not_null mail);
    simplify_eq; split; simpl; try done.
  intros k [->|Hk]%lookup_insert_is_Some'; [lia|]. apply Hu in Hk. lia.
Qed.

Lemma update_user_sequenced u d out d' :
  update_user u d = (out, d') →
  is_Some (users d !! user_id u) → sequenced d → sequenced d'.
Proof.
  unfold update_user. intros Hq Hrow [Hu Hp]. simplify_eq; split; simpl; try done.
  intros k [<-|Hk]%lookup_insert_is_Some'; auto.
Qed.

Lemma delete_user_sequenced u d out d' :
  delete_user u d = (out, d') → sequenced d → sequenced d'.
Proof.
  unfold delete_user. intros Hq [Hu Hp]. simplify_eq; split; simpl.
  - intros k [v [_ Hk]%lookup_delete_Some]. eauto.
  - intros i [p [Hi _]%map_lookup_filter_Some]. eauto.
Qed.

Lemma insert_post_sequenced t desc u d out d' :
  insert_post t desc u d = (out, d') → sequenced d → sequenced d'.
Proof.
  unfold insert_post. intros Hq [Hu Hp].
  destruct (not_null t && not_null desc); [|by simplify_eq].
  destruct (users d !! user_id u); simplify_eq; [|done].
  split; simpl; try done.
  intros i [->|Hi]%lookup_insert_is_Some'; [lia|]. apply Hp in Hi. lia.
Qed.

Lemma update_post_sequenced p d out d' :
  update_post p d = (out, d') →
  is_Some (posts d !! post_id p) → sequenced d → sequenced d'.
Proof.
  unfold update_post. intros Hq Hrow [Hu Hp]. simplify_eq; split; simpl; try done.
  intros i [<-|Hi]%lookup_insert_is_Some'; auto.
Qed.

Lemma delete_post_sequenced p d out d' :
  delete_post p d = (out, d') → sequenced d → sequenced d'.
Proof.
  unfold delete_post. intros Hq [Hu Hp]. simplify_eq; split; simpl; try done.
  intros i [q [_ Hi]%lookup_delete_Some]. eauto.
Qed.

Lemma assign_user_fields_id (u : User) (first last mail : JsValue) :
  user_id (assign_user_fields u first last mail) = user_id u.
Proof.
  unfold assign_user_fields.
  by destruct (truthy first), (truthy last), (truthy mail).
Qed.

Lemma select_users_db d out d' : select_users d = (out, d') → d' = d.
Proof. unfold select_users. intros; by simplify_eq. Qed.

Lemma select_user_db c d out d' : select_user c d = (out, d') → d' = d.
Proof. unfold select_user. destruct c; intros; by simplify_eq. Qed.

Lemma select_post_db c d out d' : select_post c d = (out, d') → d' = d.
Proof. unfold select_post. destruct c; intros; by simplify_eq. Qed.

Lemma select_posts_of_db c d out d' :
  select_posts_of c d = (out, d') → d' = d.
Proof. unfold select_posts_of. destruct c; intros; by simplify_eq. Qed.

Lemma select_user_found c d u d' :
  select_user c d = (Ok (Some u), d') → ∃ k, c = ById k ∧ users d !! k = Some u.
Proof. unfold select_user. destruct c; intros; simplify_eq; eauto. Qed.

Lemma select_post_found c d p d' :
  select_post c d = (Ok (Some p), d') → ∃ k, c = ById k ∧ posts d !! k = Some p.
Proof. unfold select_post. destruct c; intros; simplify_eq; eauto. Qed.

(** The database is as it was after a query that only reads. *)
Ltac reads :=
  repeat match goal with
  | H : select_users _ = _ |- _ => apply select_users_db in H as ->
  | H : select_user _ _ = (Ok (Some _), _) |- _ =>
      let Hrow := fresh "Hrow" in
      pose proof (select_user_found _ _ _ _ H) as (? & _ & Hrow);
      apply select_user_db in H as ->
  | H : select_post _ _ = (Ok (Some _), _) |- _ =>
      let Hrow := fresh "Hrow" in
      pose proof (select_post_found _ _ _ _ H) as (? & _ & Hrow);
      apply select_post_db in H as ->
  | H : select_user _ _ = _ |- _ => apply select_user_db in H as ->
  | H : select_post _ _ = _ |- _ => apply select_post_db in H as ->
  | H : select_posts_of _ _ = _ |- _ => apply select_posts_of_db in H as ->
  end.

Lemma handle_sequenced (r : Request) (w : World) :
  consistent (db w) → sequenced (db w) → sequenced (db (handle r w).2).
Proof.
  intros Hc Hs.
  destruct r; unfold_handlers; repeat trip;
    cbn [db answered failed fst snd] in *; reads; try done;
    eauto using insert_user_sequenced, delete_user_sequenced,
      insert_post_sequenced, delete_post_sequenced.
  all: try by (unfold update_user, update_post in *; simplify_eq).
  all: try (eapply update_user_sequenced; [eassumption| |assumption];
            rewrite assign_user_fields_id;
            by erewrite (user_keys _ Hc) by eassumption).
  all: eapply update_post_sequenced; [eassumption| |assumption];
    cbn [post_id]; by erewrite (post_keys _ Hc) by eassumption.
Qed.

(** X4.  Identities are given out once.  Serving a request never moves a
    counter back, and when every key in use is below its counter before
    the request, so it is after it: a key that was once given out, also
    that of a row deleted since, is not given out again. *)
Theorem identities_not_reused (r : Request) (w : World) :
  consistent (db w) →
  sequenced (db w) →
  sequenced (db (handle r w).2)
  ∧ user_seq (db w) ≤ user_seq (db (handle r w).2)
  ∧ post_seq (db w) ≤ post_seq (db (handle r w).2).
Proof.
  intros Hc Hs. split; [by apply handle_sequenced|].
  destruct r; unfold_handlers; repeat trip; simpl; query; simpl; lia.
Qed.

(** *** Users: listing and creation *)

Lemma rows_spec {A} (m : gmap Z A) (x : A) :
  x ∈ (map_to_list m).*2 ↔ ∃ k, m !! k = Some x.
Proof.
  rewrite list_elem_of_fmap. split.
  - intros ([k y] & -> & Hin). apply elem_of_map_to_list in Hin. eauto.
  - intros (k & Hk). exists (k, x). split; [done|].
    by apply elem_of_map_to_list.
Qed.

Lemma get_users_answered (w : World) :
  calm 1 w = true →
  handle GET_users w =
    (Ok (respond 200 (UsersJson ((map_to_list (users (db w))).*2))),
     answered w (db w)).
Proof.
  intros Hcalm. unfold_handlers. by rewrite round_trip_calm by done.
Qed.

(** X5.  [GET /users], its round trip being answered, answers 200 with a
    list that holds a record exactly when it is a stored row of [user]; the
    list is as long as the table has rows, so it is empty on an empty table,
    and no row occurs twice when the tables are consistent. *)
Theorem get_users_lists_all (w : World) :
  calm 1 w = true →
  ∃ us, (handle GET_users w).1 = Ok (respond 200 (UsersJson us))
        ∧ (∀ u, u ∈ us ↔ ∃ k, users (db w) !! k = Some u)
        ∧ length us = size (users (db w))
        ∧ (consistent (db w) → NoDup us).
Proof.
  intros Hcalm. rewrite get_users_answered by done. eexists.
  split; [reflexivity|]. split; [apply rows_spec|]. split.
  - by rewrite length_fmap, length_map_to_list.
  - intros [Hu _ _]. apply NoDup_fmap_2_strong; [|apply NoDup_map_to_list].
    intros [i u] [j v] Hi Hj Heq. simpl in Heq. subst v.
    apply elem_of_map_to_list in Hi, Hj. apply Hu in Hi, Hj. congruence.
Qed.

Lemma post_users_answered (body : Body) (w : World) :
  not_null (prop body "firstName") = true →
  not_null (prop body "lastName") = true →
  not_null (prop body "email") = true →
  calm 1 w = true →
  let u := mkUser (user_seq (db w)) (prop body "firstName")
             (prop body "lastName") (prop body "email") in
  handle (POST_users body) w =
    (Ok (respond 201 (UserJson u)),
     answered w {| users := <[user_seq (db w) := u]> (users (db w));
                   posts := posts (db w);
                   user_seq := user_seq (db w) + 1;
                   post_seq := post_seq (db w) |}).
Proof.
  intros Hf Hl He Hcalm. unfold_handlers.
  rewrite round_trip_calm by done. unfold insert_user.
  by rewrite Hf, Hl, He.
Qed.

(** X6.  [POST /users] with a body whose three fields are strings that
    fit their columns (100 characters; an empty string will do, nothing
    else is checked), the round trip being answered: the response is 201
    with the new record, whose identity is the next key of the counter and
    was the key of no stored user; the record is stored, no stored user is
    lost or altered, and a [GET /users] that follows lists the new record
    and every user stored before. *)
Theorem post_users_creates (body : Body) (w : World) (first last mail : string) :
  prop body "firstName" = JStr first →
  prop body "lastName" = JStr last →
  prop body "email" = JStr mail →
  (String.length first ≤ 100)%nat →
  (String.length last ≤ 100)%nat →
  (String.length mail ≤ 100)%nat →
  sequenced (db w) →
  calm 2 w = true →
  let u := mkUser (user_seq (db w)) (JStr first) (JStr last) (JStr mail) in
  let w' := (handle (POST_users body) w).2 in
  (handle (POST_users body) w).1 = Ok (respond 201 (UserJson u))
  ∧ users (db w) !! user_id u = None
  ∧ users (db w') !! user_id u = Some u
  ∧ (∀ k v, users (db w) !! k = Some v → users (db w') !! k = Some v)
  ∧ ∃ us, (handle GET_users w').1 = Ok (respond 200 (UsersJson us))
          ∧ u ∈ us
          ∧ ∀ k v, users (db w) !! k = Some v → v ∈ us.
Proof.
  intros Hf Hl He _ _ _ [Hu _] Hcalm u w'.
  assert (Hfresh : users (db w) !! user_seq (db w) = None).
  { destruct (users (db w) !! user_seq (db w)) eqn:Hrow; [|done].
    assert (user_seq (db w) < user_seq (db w)) by eauto. lia. }
  subst w'. rewrite (post_users_answered body w);
    [|by rewrite ?Hf, ?Hl, ?He..|by eapply calm_first].
  rewrite Hf, Hl, He. fold u. cbn [fst snd user_id u].
  assert (Hkept : ∀ k v, users (db w) !! k = Some v →
            <[user_seq (db w) := u]> (users (db w)) !! k = Some v).
  { intros k v Hk. rewrite lookup_insert_ne; [done|]. congruence. }
  split; [done|]. split; [done|]. split; [apply lookup_insert_eq|].
  split; [exact Hkept|].
  rewrite get_users_answered by (by apply calm_answered).
  eexists. split; [reflexivity|].
  split; [apply rows_spec; exists (user_seq (db w)); apply lookup_insert_eq|].
  intros k v Hk. apply rows_spec. exists k. by apply Hkept.
Qed.

(** X7.  [POST /users] with a body in which [firstName], [lastName] or
    [email] is missing or [null] answers 500 with the message of the
    route, whatever the storage layer does, and stores nothing: the
    handler checks no field, and the [NOT NULL] columns of [user] refuse
    the row. *)
Theorem post_users_missing_field (body : Body) (w : World) :
  not_null (prop body "firstName") && not_null (prop body "lastName")
    && not_null (prop body "email") = false →
  (handle (POST_users body) w).1
    = Ok (respond 500 (Message "Error creating user"))
  ∧ db (handle (POST_users body) w).2 = db w.
Proof.
  intros Hnull. unfold_handlers. repeat trip; simpl;
    repeat match goal with
    | H : insert_user _ _ _ _ = _ |- _ =>
        unfold insert_user in H; rewrite Hnull in H
    end; by simplify_eq.
Qed.

(** *** Updates *)

(** X8.  [PUT /users/:id], for every body and whatever the storage layer
    does, creates no user and removes none, leaves every row but the one
    the path parameter selects as it was, and never changes the identity
    of a row. *)
Theorem put_users_id_touches_one_row (id : string) (body : Body) (w : World) :
  consistent (db w) →
  let w' := (handle (PUT_users_id id body) w).2 in
  dom (users (db w')) = dom (users (db w))
  ∧ (∀ j, where_id (parseInt id) ≠ ById j →
          users (db w') !! j = users (db w) !! j)
  ∧ (∀ j u u', users (db w) !! j = Some u → users (db w') !! j = Some u' →
               user_id u' = user_id u).
Proof.
  intros Hc w'. subst w'.
  assert (Hcases :
    db (handle (PUT_users_id id body) w).2 = db w
    ∨ ∃ k u u', where_id (parseInt id) = ById k
                ∧ users (db w) !! k = Some u
                ∧ user_id u' = k
                ∧ users (db (handle (PUT_users_id id body) w).2)
                  = <[k := u']> (users (db w))).
  { unfold_handlers. repeat trip; cbn [db answered failed fst snd] in *.
    all: try (left; reads; done).
    all: try by (unfold update_user in *; simplify_eq).
    right. unfold select_user in *.
    destruct (where_id (parseInt id)) as [k| |]; simplify_eq.
    unfold update_user in *. simplify_eq. cbn [users].
    assert (Hid : user_id u = k) by (by eapply user_keys).
    exists k, u, (assign_user_fields u (prop body "firstName")
                    (prop body "lastName") (prop body "email")).
    rewrite assign_user_fields_id, Hid. done. }
  destruct Hcases as [-> | (k & u & u' & Hk & Hrow & Hid & ->)].
  - split; [done|]. split; [done|]. intros. congruence.
  - split; [|split].
    + rewrite dom_insert_L. apply elem_of_dom_2 in Hrow.
      apply set_eq. intros j. rewrite elem_of_union, elem_of_singleton.
      split; [intros [->|?]; done|auto].
    + intros j Hj. rewrite lookup_insert_ne; [done|]. congruence.
    + intros j v v' Hv. pose proof (user_keys _ Hc _ _ Hv) as Hj.
      rewrite lookup_insert. case_decide; intros; simplify_eq; congruence.
Qed.

Lemma put_posts_id_answered (id : string) (body : Body) (w : World) k p :
  where_id (parseInt id) = ById k →
  posts (db w) !! k = Some p →
  calm 2 w = true →
  let p' := mkPost (post_id p) (js_or (prop body "title") (title p))
              (js_or (prop body "description") (description p)) (userId p) in
  handle (PUT_posts_id id body) w =
    (Ok (respond 200 (PostJson p')),
     answered (answered w (db w)) (update_post p' (db w)).2).
Proof.
  intros Hk Hp Hcalm. unfold_handlers. rewrite Hk.
  rewrite round_trip_calm by (by eapply calm_first). simpl. rewrite Hp.
  rewrite round_trip_calm by (by apply calm_answered). done.
Qed.

(** X9.  [PUT /posts/:id] on a stored post with a body that supplies no
    truthy [title] or [description] (the empty body, or empty strings),
    both round trips being answered: the response is 200 with the stored
    record and the database after the request is the database before. *)
Theorem put_posts_id_no_truthy_field_is_identity
    (id : string) (body : Body) (w : World) k p :
  where_id (parseInt id) = ById k →
  posts (db w) !! k = Some p →
  consistent (db w) →
  calm 2 w = true →
  truthy (prop body "title") = false →
  truthy (prop body "description") = false →
  (handle (PUT_posts_id id body) w).1 = Ok (respond 200 (PostJson p))
  ∧ db (handle (PUT_posts_id id body) w).2 = db w.
Proof.
  intros Hk Hp Hc Hcalm Ht Hd.
  assert (Hid : post_id p = k) by (by eapply post_keys).
  rewrite (put_posts_id_answered id body w k p) by done.
  unfold js_or. rewrite Ht, Hd.
  assert (Hsame : mkPost (post_id p) (title p) (description p) (userId p) = p)
    by (by destruct p).
  rewrite Hsame. cbn [fst snd answered update_post db].
  rewrite Hid, insert_id by done. split; [done|]. by destruct (db w).
Qed.

(** *** Identities that select no row *)

(** X10.  [PUT /users/:id] and [DELETE /users/:id] with a path parameter
    that selects no stored user answer 404 "User not found" when the
    lookup is answered, for every body. *)
Theorem users_routes_answer_404 (id : string) (body : Body) (w : World) :
  no_such_user (where_id (parseInt id)) (db w) →
  calm 1 w = true →
  (handle (PUT_users_id id body) w).1
    = Ok (respond 404 (Message "User not found"))
  ∧ (handle (DELETE_users_id id) w).1
    = Ok (respond 404 (Message "User not found")).
Proof.
  intros Hnone Hcalm. unfold_handlers. rewrite !round_trip_calm by done.
  unfold select_user. destruct (where_id _); simpl in *; [|done..].
  by rewrite Hnone.
Qed.

(** X11.  [PUT /posts/:id] and [DELETE /posts/:id] with a path parameter
    that selects no stored post answer 404 "Post not found" when the
    lookup is answered, for every body. *)
Theorem posts_routes_answer_404 (id : string) (body : Body) (w : World) :
  no_such_post (where_id (parseInt id)) (db w) →
  calm 1 w = true →
  (handle (PUT_posts_id id body) w).1
    = Ok (respond 404 (Message "Post not found"))
  ∧ (handle (DELETE_posts_id id) w).1
    = Ok (respond 404 (Message "Post not found")).
Proof.
  intros Hnone Hcalm. unfold_handlers. rewrite !round_trip_calm by done.
  unfold select_post. destruct (where_id _); simpl in *; [|done..].
  by rewrite Hnone.
Qed.

(** *** Posts: creation, listing and deletion *)

Lemma calm_fewer (n : nat) (w : World) : calm (S n) w = true → calm n w = true.
Proof.
  unfold calm. generalize (faults w). induction n as [|n IH]; [done|].
  intros [|f fs]; [done|]. cbn [take forallb].
  intros [-> Hrest]%andb_prop. by rewrite IH.
Qed.

Lemma truthy_not_null (v : JsValue) : truthy v = true → not_null v = true.
Proof. by destruct v. Qed.

Lemma get_users_id_posts_answered (id : string) (w : World) k :
  where_id (parseInt id) = ById k →
  calm 1 w = true →
  handle (GET_users_id_posts id) w =
    (Ok (respond 200 (PostsJson
       ((map_to_list (filter (fun kp => userId kp.2 = k) (posts (db w)))).*2))),
     answered w (db w)).
Proof.
  intros Hk Hcalm. unfold_handlers. rewrite round_trip_calm by done.
  unfold select_posts_of. by rewrite Hk.
Qed.

Lemma post_posts_answered (body : Body) (w : World) k u :
  truthy (prop body "title") = true →
  truthy (prop body "description") = true →
  truthy (prop body "userId") = true →
  where_id (prop body "userId") = ById k →
  users (db w) !! k = Some u →
  user_id u = k →
  calm 2 w = true →
  let p := mkPost (post_seq (db w)) (prop body "title")
             (prop body "description") k in
  handle (POST_posts body) w =
    (Ok (respond 201 (NewPostJson p u)),
     answered (answered w (db w))
       {| users := users (db w);
          posts := <[post_seq (db w) := p]> (posts (db w));
          user_seq := user_seq (db w);
          post_seq := post_seq (db w) + 1 |}).
Proof.
  intros Ht Hd Hu Hk Hrow Hid Hcalm. unfold_handlers. rewrite Ht, Hd, Hu, Hk.
  simpl. rewrite round_trip_calm by (by eapply calm_first). simpl.
  rewrite Hrow. rewrite round_trip_calm by (by apply calm_answered).
  unfold insert_post. cbn [db answered].
  rewrite (truthy_not_null _ Ht), (truthy_not_null _ Hd), Hid, Hrow. done.
Qed.

(** X12.  [POST /posts] with a [title] and a [description] that are
    non-empty strings fitting their columns (100 and 255 characters) and a
    truthy [userId] that selects a stored user, both round trips being
    answered: the response is 201 with the new post and its owner; the
    post has the next key of the counter, which was the key of no stored
    post, and as [userId] the key of the user that was found; it is stored
    beside the posts that were there, and a [GET /users/:id/posts] for that
    user that follows lists it with every post the user had. *)
Theorem post_posts_creates (body : Body) (id : string) (w : World) k u
    (t desc : string) :
  prop body "title" = JStr t →
  prop body "description" = JStr desc →
  t ≠ ""%string → desc ≠ ""%string →
  (String.length t ≤ 100)%nat →
  (String.length desc ≤ 255)%nat →
  truthy (prop body "userId") = true →
  where_id (prop body "userId") = ById k →
  where_id (parseInt id) = ById k →
  users (db w) !! k = Some u →
  consistent (db w) →
  sequenced (db w) →
  calm 3 w = true →
  let p := mkPost (post_seq (db w)) (JStr t) (JStr desc) k in
  let w' := (handle (POST_posts body) w).2 in
  (handle (POST_posts body) w).1 = Ok (respond 201 (NewPostJson p u))
  ∧ posts (db w) !! post_id p = None
  ∧ posts (db w') = <[post_id p := p]> (posts (db w))
  ∧ ∃ ps, (handle (GET_users_id_posts id) w').1
            = Ok (respond 200 (PostsJson ps))
          ∧ p ∈ ps
          ∧ ∀ i q, posts (db w) !! i = Some q → userId q = k → q ∈ ps.
Proof.
  intros Htitle Hdesc Htne Hdne _ _ Hu Hk Hpath Hrow Hc [_ Hp] Hcalm p w'.
  assert (Ht : truthy (prop body "title") = true).
  { rewrite Htitle. simpl. by destruct (String.eqb_spec t ""). }
  assert (Hd : truthy (prop body "description") = true).
  { rewrite Hdesc. simpl. by destruct (String.eqb_spec desc ""). }
  assert (Hid : user_id u = k) by (by eapply user_keys).
  assert (Hfresh : posts (db w) !! post_seq (db w) = None).
  { destruct (posts (db w) !! post_seq (db w)) eqn:Hq; [|done].
    assert (post_seq (db w) < post_seq (db w)) by eauto. lia. }
  assert (Hcalm2 : calm 2 w = true) by (by apply calm_fewer).
  subst w'. rewrite (post_posts_answered body w k u) by done.
  rewrite Htitle, Hdesc. fold p. cbn [fst snd answered db].
  split; [done|]. split; [done|]. split; [done|].
  rewrite (get_users_id_posts_answered id _ k);
    [|done|by apply calm_answered, calm_answered].
  eexists. split; [reflexivity|]. cbn [db answered].
  split; [|intros i q Hi Hq]; apply posts_of_owner_spec; cbn [posts].
  - exists (post_seq (db w)). by rewrite lookup_insert_eq.
  - exists i. split; [|done]. rewrite lookup_insert_ne; [done|].
    congruence.
Qed.

Lemma delete_posts_id_answered (id : string) (w : World) k p :
  where_id (parseInt id) = ById k →
  posts (db w) !! k = Some p →
  calm 2 w = true →
  handle (DELETE_posts_id id) w =
    (Ok (respond 200 (Message "Post deleted successfully")),
     answered (answered w (db w)) (delete_post p (db w)).2).
Proof.
  intros Hk Hp Hcalm. unfold_handlers. rewrite Hk.
  rewrite round_trip_calm by (by eapply calm_first). simpl. rewrite Hp.
  rewrite round_trip_calm by (by apply calm_answered). done.
Qed.

(** X13.  [DELETE /posts/:id] on a stored post, the round trips being
    answered: the response is 200, the row of that post, and no other, is
    removed, its owner stays stored, and the same request again answers
    404. *)
Theorem delete_posts_id_removes_one (id : string) (w : World) k p :
  where_id (parseInt id) = ById k →
  posts (db w) !! k = Some p →
  consistent (db w) →
  calm 3 w = true →
  let w' := (handle (DELETE_posts_id id) w).2 in
  (handle (DELETE_posts_id id) w).1
    = Ok (respond 200 (Message "Post deleted successfully"))
  ∧ posts (db w') = delete k (posts (db w))
  ∧ users (db w') = users (db w)
  ∧ is_Some (users (db w') !! userId p)
  ∧ (handle (DELETE_posts_id id) w').1
    = Ok (respond 404 (Message "Post not found")).
Proof.
  intros Hk Hp Hc Hcalm w'.
  assert (Hid : post_id p = k) by (by eapply post_keys).
  subst w'. rewrite (delete_posts_id_answered id w k p);
    [|done|done|by apply calm_fewer].
  cbn [fst snd answered delete_post db posts users]. rewrite Hid.
  split; [done|]. split; [done|]. split; [done|].
  split; [by eapply post_owner|].
  unfold_handlers. rewrite Hk.
  rewrite round_trip_calm by (by apply calm_answered, calm_answered).
  cbn [select_post db answered posts]. by rewrite lookup_delete_eq.
Qed.

(** X14.  Once [DELETE /users/:id] has removed a stored user (its round
    trips being answered), the requests on the same identity that follow
    find nothing: [GET /users/:id/posts] answers 200 with the empty list,
    and [PUT /users/:id] and [DELETE /users/:id] answer 404. *)
Theorem after_delete_users_id (id : string) (body : Body) (w : World) k u :
  where_id (parseInt id) = ById k →
  users (db w) !! k = Some u →
  consistent (db w) →
  calm 3 w = true →
  let w' := (handle (DELETE_users_id id) w).2 in
  (handle (GET_users_id_posts id) w').1 = Ok (respond 200 (PostsJson []))
  ∧ (handle (PUT_users_id id body) w').1
    = Ok (respond 404 (Message "User not found"))
  ∧ (handle (DELETE_users_id id) w').1
    = Ok (respond 404 (Message "User not found")).
Proof.
  intros Hk Hu Hc Hcalm w'.
  assert (Hid : user_id u = k) by (by eapply user_keys).
  assert (Hcalm' : calm 1 w' = true).
  { subst w'. rewrite (delete_users_id_answered parseInt coerce_id id w k u);
      [|done|done|by apply calm_fewer].
    by apply calm_answered, calm_answered. }
  assert (Hdb : db w' = (delete_user u (db w)).2).
  { subst w'. by rewrite (delete_users_id_answered parseInt coerce_id id w k u);
      [|done|done|by apply calm_fewer]. }
  split; [|split].
  - rewrite (get_users_id_posts_answered id w' k) by done.
    cbn [fst]. do 3 f_equal. rewrite Hdb. cbn [delete_user snd].
    apply elem_of_nil_inv. intros q Hq.
    apply posts_of_owner_spec in Hq as (i & Hi & Hown). cbn [posts] in Hi.
    apply map_lookup_filter_Some in Hi as [_ Hne]. simpl in Hne. congruence.
  - unfold_handlers. rewrite Hk, round_trip_calm by done.
    rewrite Hdb. cbn [select_user delete_user snd users].
    by rewrite Hid, lookup_delete_eq.
  - unfold_handlers. rewrite Hk, round_trip_calm by done.
    rewrite Hdb. cbn [select_user delete_user snd users].
    by rewrite Hid, lookup_delete_eq.
Qed.

End Coverage.

(** ** Start-up: what the connection loop prints *)

Section StartupLog.

Local Open Scope nat_scope.

Variable initialize : nat -> Outcome unit.

Lemma connect_loop_keeps_output (retries : nat) (p : Process) (line : string) :
  line ∈ output p → line ∈ output (connect_loop initialize retries p).2.
Proof.
  revert p. induction retries as [|r IH]; intros p Hin; simpl; [done|].
  destruct (initialize (attempts p)) as [[]|err]; simpl.
  - by apply list_elem_of_further.
  - apply IH. simpl. by do 2 apply list_elem_of_further.
Qed.

Lemma connect_loop_logs (retries : nat) (p : Process) (j : nat) :
  j < retries →
  (∀ i, i ≤ j → fails (initialize (attempts p + i)) = true) →
  attempt_error (initialize (attempts p + j))
    ∈ output (connect_loop initialize retries p).2
  ∧ ("Retries left: " +:+ pretty (retries - 1 - j))
    ∈ output (connect_loop initialize retries p).2.
Proof.
  revert p j. induction retries as [|r IH]; intros p j Hj Hfail; [lia|].
  pose proof (Hfail 0 ltac:(lia)) as H0. rewrite Nat.add_0_r in H0.
  simpl. destruct (initialize (attempts p)) as [[]|err] eqn:Hinit;
    [discriminate|].
  destruct j as [|j].
  - rewrite Nat.add_0_r, Hinit. simpl. rewrite !Nat.sub_0_r.
    split; apply connect_loop_keeps_output; simpl.
    + apply list_elem_of_further, list_elem_of_here.
    + apply list_elem_of_here.
  - lazymatch goal with
    | |- context [connect_loop initialize r ?q] =>
        destruct (IH q j) as [Herr Hleft]
    end.
    + lia.
    + simpl. intros i Hi.
      replace (S (attempts p + i)) with (attempts p + S i) by lia.
      apply Hfail. lia.
    + simpl in Herr.
      replace (S (attempts p + j)) with (attempts p + S j) in Herr by lia.
      split; [exact Herr|].
      replace (r - 0 - S j) with (r - 1 - j) by lia. exact Hleft.
Qed.

(** X15.  Every attempt of the connection loop that fails before any has
    succeeded is on the console: the line with its error, and the line
    with the number of retries left after it, 9 after the first attempt
    down to 0 after the tenth. *)
Theorem failed_attempts_are_logged (j : nat) :
  j < 10 →
  (∀ i, i ≤ j → fails (initialize i) = true) →
  attempt_error (initialize j) ∈ output (initializeDatabase initialize)
  ∧ ("Retries left: " +:+ pretty (9 - j))
    ∈ output (initializeDatabase initialize).
Proof.
  intros Hj Hfail.
  destruct (connect_loop_logs 10 started j Hj Hfail) as [Herr Hleft].
  change (attempts started + j) with j in Herr.
  change (10 - 1 - j) with (9 - j) in Hleft.
  unfold initializeDatabase.
  destruct (connect_loop initialize 10 started) as [rest p].
  cbn [snd] in Herr, Hleft.
  destruct (rest =? 0); cbn [output]; [|done].
  split; by apply list_elem_of_further.
Qed.

Lemma connect_loop_shape (retries : nat) (p : Process) :
  exit_code (connect_loop initialize retries p).2 = exit_code p
  ∧ (if (connect_loop initialize retries p).1 =? 0
     then length (output (connect_loop initialize retries p).2)
            + 2 * length (timers p)
          = length (output p)
            + 2 * length (timers (connect_loop initialize retries p).2)
     else head (output (connect_loop initialize retries p).2)
            = Some "Data Source has been initialized!"%string
          ∧ length (output (connect_loop initialize retries p).2)
              + 2 * length (timers p)
            = S (length (output p))
              + 2 * length (timers (connect_loop initialize retries p).2)).
Proof.
  revert p. induction retries as [|r IH]; intros p; simpl; [split; [done|lia]|].
  destruct (initialize (attempts p)) as [[]|err]; simpl.
  - split; [done|]. split; [done|lia].
  - lazymatch goal with
    | |- context [connect_loop initialize r ?q] =>
        destruct (IH q) as [He Hshape];
        destruct (connect_loop initialize r q) as [rest p']
    end.
    simpl in *. split; [done|].
    destruct (rest =? 0); [lia|]. destruct Hshape as [Hhead Hlen].
    split; [done|lia].
Qed.

(** X16.  The last line the connection loop prints tells how it ended:
    "Data Source has been initialized!" when the process goes on,
    "Could not connect to the database. Exiting..." when it exits with
    code 1, and these are the only two ends.  Before that line it has
    printed two lines for every delay it waited. *)
Theorem last_line_tells_the_outcome :
  (exit_code (initializeDatabase initialize) = None
   ∧ head (output (initializeDatabase initialize))
     = Some "Data Source has been initialized!"%string
   ∨ exit_code (initializeDatabase initialize) = Some 1%Z
     ∧ head (output (initializeDatabase initialize))
       = Some "Could not connect to the database. Exiting..."%string)
  ∧ length (output (initializeDatabase initialize))
    = S (2 * length (timers (initializeDatabase initialize))).
Proof.
  unfold initializeDatabase.
  destruct (connect_loop_shape 10 started) as [He Hshape].
  destruct (connect_loop initialize 10 started) as [rest p].
  simpl in He, Hshape. destruct (rest =? 0); simpl.
  - split; [by right|lia].
  - destruct Hshape as [Hhead Hlen]. split; [by left|lia].
Qed.

End StartupLog.

(** ** The further properties on the end-to-end run *)

Lemma one_user_one_post_sequenced : sequenced (db one_user_one_post).
Proof.
  unfold one_user_one_post, serve.
  apply handle_sequenced.
  - apply handle_consistent. exact consistent_empty.
  - apply handle_sequenced; [exact consistent_empty|exact sequenced_empty].
Qed.

Lemma console_holds_the_error_witness :
  (handle parse_decimal no_coercion GET_users outage).1
  = Ok (respond 500 (Message "Error fetching users"))
  ∧ ∃ e, thrown (handle parse_decimal no_coercion GET_users outage).2
         = e :: thrown outage
         ∧ console (handle parse_decimal no_coercion GET_users outage).2
           = (catch_label GET_users +:+ " " +:+ e) :: console outage.
Proof.
  split; [reflexivity|].
  exact (console_holds_the_error parse_decimal no_coercion GET_users outage
           (respond 500 (Message "Error fetching users")) eq_refl).
Defined.

Lemma identities_not_reused_witness :
  consistent (db one_user_one_post)
  ∧ sequenced (db one_user_one_post)
  ∧ sequenced (db (serve (DELETE_users_id "1") one_user_one_post))
  ∧ user_seq (db one_user_one_post)
    ≤ user_seq (db (serve (DELETE_users_id "1") one_user_one_post)).
Proof.
  split; [exact one_user_one_post_consistent|].
  split; [exact one_user_one_post_sequenced|].
  destruct (identities_not_reused parse_decimal no_coercion
              (DELETE_users_id "1") one_user_one_post
              one_user_one_post_consistent one_user_one_post_sequenced)
    as (Hseq & Husers & _).
  split; [exact Hseq|exact Husers].
Defined.

Lemma get_users_lists_all_witness :
  calm 1 one_user_one_post = true
  ∧ ∃ us, (handle parse_decimal no_coercion GET_users one_user_one_post).1
          = Ok (respond 200 (UsersJson us))
          ∧ user_1 ∈ us ∧ length us = 1%nat.
Proof.
  split; [reflexivity|].
  destruct (get_users_lists_all parse_decimal no_coercion one_user_one_post
              eq_refl) as (us & Hout & Hin & Hlen & _).
  exists us. split; [exact Hout|]. split; [|exact Hlen].
  apply Hin. exists 1. reflexivity.
Defined.

Lemma post_users_creates_witness :
  prop new_user_body "firstName" = JStr "A"
  ∧ sequenced (db one_user_one_post)
  ∧ calm 2 one_user_one_post = true
  ∧ (handle parse_decimal no_coercion (POST_users new_user_body)
       one_user_one_post).1
    = Ok (respond 201 (UserJson (mkUser 2 (JStr "A") (JStr "B") (JStr "a@b.com"))))
  ∧ users (db (serve (POST_users new_user_body) one_user_one_post)) !! 1
    = Some user_1.
Proof.
  split; [reflexivity|]. split; [exact one_user_one_post_sequenced|].
  split; [reflexivity|].
  destruct (post_users_creates parse_decimal no_coercion new_user_body
              one_user_one_post "A" "B" "a@b.com" eq_refl eq_refl eq_refl
              ltac:(simpl; lia) ltac:(simpl; lia) ltac:(simpl; lia)
              one_user_one_post_sequenced eq_refl)
    as (Hout & _ & _ & Hkept & _).
  split; [exact Hout|]. apply Hkept. reflexivity.
Defined.

Lemma post_users_missing_field_witness :
  not_null (prop nameless_body "firstName")
    && not_null (prop nameless_body "lastName")
    && not_null (prop nameless_body "email") = false
  ∧ (handle parse_decimal no_coercion (POST_users nameless_body)
       one_user_one_post).1
    = Ok (respond 500 (Message "Error creating user"))
  ∧ db (handle parse_decimal no_coercion (POST_users nameless_body)
          one_user_one_post).2
    = db one_user_one_post.
Proof.
  split; [reflexivity|].
  exact (post_users_missing_field parse_decimal no_coercion nameless_body
           one_user_one_post eq_refl).
Defined.

Lemma put_users_id_touches_one_row_witness :
  consistent (db one_user_one_post)
  ∧ dom (users (db (serve (PUT_users_id "1" rename_body) one_user_one_post)))
    = dom (users (db one_user_one_post)).
Proof.
  split; [exact one_user_one_post_consistent|].
  destruct (put_users_id_touches_one_row parse_decimal no_coercion "1"
              rename_body one_user_one_post one_user_one_post_consistent)
    as (Hdom & _).
  exact Hdom.
Defined.

Lemma put_posts_id_no_truthy_field_is_identity_witness :
  where_id no_coercion (parse_decimal "1") = ById 1
  ∧ posts (db one_user_one_post) !! 1 = Some post_1
  ∧ consistent (db one_user_one_post)
  ∧ calm 2 one_user_one_post = true
  ∧ truthy (prop empty_body "title") = false
  ∧ (handle parse_decimal no_coercion (PUT_posts_id "1" empty_body)
       one_user_one_post).1
    = Ok (respond 200 (PostJson post_1))
  ∧ db (handle parse_decimal no_coercion (PUT_posts_id "1" empty_body)
          one_user_one_post).2
    = db one_user_one_post.
Proof.
  split; [reflexivity|]. split; [reflexivity|].
  split; [exact one_user_one_post_consistent|]. split; [reflexivity|].
  split; [reflexivity|].
  exact (put_posts_id_no_truthy_field_is_identity parse_decimal no_coercion
           "1" empty_body one_user_one_post 1 post_1 eq_refl eq_refl
           one_user_one_post_consistent eq_refl eq_refl eq_refl).
Defined.

Lemma users_routes_answer_404_witness :
  no_such_user (where_id no_coercion (parse_decimal "7")) (db one_user_one_post)
  ∧ calm 1 one_user_one_post = true
  ∧ (handle parse_decimal no_coercion (PUT_users_id "7" rename_body)
       one_user_one_post).1
    = Ok (respond 404 (Message "User not found"))
  ∧ (handle parse_decimal no_coercion (DELETE_users_id "7")
       one_user_one_post).1
    = Ok (respond 404 (Message "User not found")).
Proof.
  split; [reflexivity|]. split; [reflexivity|].
  exact (users_routes_answer_404 parse_decimal no_coercion "7" rename_body
           one_user_one_post eq_refl eq_refl).
Defined.

Lemma posts_routes_answer_404_witness :
  no_such_post (where_id no_coercion (parse_decimal "7")) (db one_user_one_post)
  ∧ calm 1 one_user_one_post = true
  ∧ (handle parse_decimal no_coercion (PUT_posts_id "7" retitle_body)
       one_user_one_post).1
    = Ok (respond 404 (Message "Post not found"))
  ∧ (handle parse_decimal no_coercion (DELETE_posts_id "7")
       one_user_one_post).1
    = Ok (respond 404 (Message "Post not found")).
Proof.
  split; [reflexivity|]. split; [reflexivity|].
  exact (posts_routes_answer_404 parse_decimal no_coercion "7" retitle_body
           one_user_one_post eq_refl eq_refl).
Defined.

Lemma post_posts_creates_witness :
  where_id no_coercion (prop new_post_body "userId") = ById 1
  ∧ users (db one_user_one_post) !! 1 = Some user_1
  ∧ calm 3 one_user_one_post = true
  ∧ (handle parse_decimal no_coercion (POST_posts new_post_body)
       one_user_one_post).1
    = Ok (respond 201 (NewPostJson (mkPost 2 (JStr "T") (JStr "D") 1) user_1))
  ∧ ∃ ps, (handle parse_decimal no_coercion (GET_users_id_posts "1")
             (serve (POST_posts new_post_body) one_user_one_post)).1
          = Ok (respond 200 (PostsJson ps))
          ∧ mkPost 2 (JStr "T") (JStr "D") 1 ∈ ps
          ∧ post_1 ∈ ps.
Proof.
  split; [reflexivity|]. split; [reflexivity|]. split; [reflexivity|].
  destruct (post_posts_creates parse_decimal no_coercion new_post_body "1"
              one_user_one_post 1 user_1 "T" "D" eq_refl eq_refl
              ltac:(discriminate) ltac:(discriminate)
              ltac:(simpl; lia) ltac:(simpl; lia) eq_refl eq_refl eq_refl
              eq_refl one_user_one_post_consistent
              one_user_one_post_sequenced eq_refl)
    as (Hout & _ & _ & ps & Hlist & Hnew & Hold).
  split; [exact Hout|]. exists ps. split; [exact Hlist|].
  split; [exact Hnew|]. apply (Hold 1 post_1); reflexivity.
Defined.

Lemma delete_posts_id_removes_one_witness :
  where_id no_coercion (parse_decimal "1") = ById 1
  ∧ posts (db one_user_one_post) !! 1 = Some post_1
  ∧ calm 3 one_user_one_post = true
  ∧ (handle parse_decimal no_coercion (DELETE_posts_id "1")
       one_user_one_post).1
    = Ok (respond 200 (Message "Post deleted successfully"))
  ∧ posts (db (serve (DELETE_posts_id "1") one_user_one_post))
    = delete 1 (posts (db one_user_one_post))
  ∧ (handle parse_decimal no_coercion (DELETE_posts_id "1")
       (serve (DELETE_posts_id "1") one_user_one_post)).1
    = Ok (respond 404 (Message "Post not found")).
Proof.
  split; [reflexivity|]. split; [reflexivity|]. split; [reflexivity|].
  destruct (delete_posts_id_removes_one parse_decimal no_coercion "1"
              one_user_one_post 1 post_1 eq_refl eq_refl
              one_user_one_post_consistent eq_refl)
    as (Hout & Hposts & _ & _ & Hagain).
  split; [exact Hout|]. split; [exact Hposts|exact Hagain].
Defined.

Lemma after_delete_users_id_witness :
  where_id no_coercion (parse_decimal "1") = ById 1
  ∧ users (db one_user_one_post) !! 1 = Some user_1
  ∧ calm 3 one_user_one_post = true
  ∧ (handle parse_decimal no_coercion (GET_users_id_posts "1")
       (serve (DELETE_users_id "1") one_user_one_post)).1
    = Ok (respond 200 (PostsJson []))
  ∧ (handle parse_decimal no_coercion (DELETE_users_id "1")
       (serve (DELETE_users_id "1") one_user_one_post)).1
    = Ok (respond 404 (Message "User not found")).
Proof.
  split; [reflexivity|]. split; [reflexivity|]. split; [reflexivity|].
  destruct (after_delete_users_id parse_decimal no_coercion "1" empty_body
              one_user_one_post 1 user_1 eq_refl eq_refl
              one_user_one_post_consistent eq_refl)
    as (Hlist & _ & Hagain).
  split; [exact Hlist|exact Hagain].
Defined.

Lemma failed_attempts_are_logged_witness :
  (9 < 10)%nat
  ∧ (∀ i, (i ≤ 9)%nat → fails (never_up i) = true)
  ∧ ("Retries left: 0"%string ∈ output (initializeDatabase never_up)).
Proof.
  assert (Hdown : ∀ i, (i ≤ 9)%nat → fails (never_up i) = true)
    by (intros i _; reflexivity).
  split; [lia|]. split; [exact Hdown|].
  destruct (failed_attempts_are_logged never_up 9 ltac:(lia) Hdown)
    as [_ Hleft].
  exact Hleft.
Defined.
